(** * Slouch detector: rolling-window keypoint aggregation and threshold alert

    Shallow embedding of [src/index.js]: [updateKeypointsData],
    [updateGraph], [drawGraph], the two UI listeners of
    [setupThresholdControls] and the module-level variables they share;
    then the inference statistics ([beginEstimatePosesStats],
    [endEstimatePosesStats]), [createDetector] and the render loop
    ([checkGuiUpdate], [renderResult], [renderPrediction], [app]).

    Conventions.
    - JavaScript numbers are taken as exact rationals ([Q]) in the first
      model; comparisons on [Q] are up to [Qeq], as [<] and [>] are in the
      source.  What depends on the rounding of IEEE doubles (the value of a
      mean, a difference at the edge of a window) is stated on the second
      model, [Double], which is the same code over binary64 floats.
    - [performance.now()] is an input: each function that reads the clock
      takes the reading as an argument.
    - [keypointsData] is a JS object used as a map from the keys 0..4 to
      arrays; it is a [gmap nat (list Entry)].  Reading a missing key and
      calling a method on the result throws a TypeError: the functions
      return [option], [None] standing for the exception.
    - [beep] drives the Web Audio API; its calls are logged in the state,
      most recent first, with the clock reading of the tick that made them. *)

From Stdlib Require Import QArith Qminmax List Sorted Ascii Lia.
From Stdlib Require PrimFloat SpecFloat FloatOps FloatAxioms.
From stdpp Require Import base option list strings gmap.

Local Open Scope Q_scope.

(** ** Data *)

(** One element of a pose's [keypoints] array, as the pose models give it. *)
Record Keypoint := { kp_x : Q; kp_y : Q; kp_score : Q }.

(** A detected pose.  A slot of the array may hold [undefined] ([None]). *)
Record Pose := { keypoints : list (option Keypoint) }.

(** An element of a history array: [{ time: ..., y: ... }]. *)
Record Entry := { time : Q; y : Q }.

(** A logged call [beep(vol, freq, duration)]. *)
Record Beep := { beep_at : Q; beep_vol : Q; beep_freq : Q; beep_duration : Q }.

(** The module-level variables of [index.js] the aggregator touches, the
    dataset of the chart, and the log of beeps. *)
Record State := {
  threshold : Q;
  alertEnabled : bool;
  lastBeepTime : Q;
  keypointsData : gmap nat (list Entry);
  chart_data : list Q;
  beeps : list Beep
}.

Definition DATA_RETENTION_WINDOW : Q := 5000.

(** [[0, 1, 2, 3, 4]], the literal both functions iterate over. *)
Definition tracked : list nat := [0; 1; 2; 3; 4]%nat.

Definition init : State := {|
  threshold := 300;
  alertEnabled := false;
  lastBeepTime := 0;
  keypointsData :=
    <[0%nat := []]> (<[1%nat := []]> (<[2%nat := []]>
      (<[3%nat := []]> (<[4%nat := []]> ∅))));
  chart_data := [];
  beeps := []
|}.

(** ** Numbers *)

(** [a < b] on JS numbers. *)
Definition Qltb (a b : Q) : bool := negb (Qle_bool b a).

(** [arr.length] as a number. *)
Definition Qlength {A} (l : list A) : Q := inject_Z (Z.of_nat (length l)).

(** The callback [d => currentTime - d.time < window]. *)
Definition within (currentTime window : Q) (d : Entry) : bool :=
  Qltb (currentTime - time d) window.

(** ** Control *)

(** [xs.forEach(x => ...)] where the callback updates an accumulator and may
    throw. *)
Fixpoint forEach {A S} (f : S -> A -> option S) (xs : list A) (acc : S)
  : option S :=
  match xs with
  | [] => Some acc
  | x :: xs' =>
      match f acc x with
      | Some acc' => forEach f xs' acc'
      | None => None
      end
  end.

(** [xs.map(x => ...)] where the callback may throw. *)
Fixpoint mapE {A B} (f : A -> option B) (xs : list A) : option (list B) :=
  match xs with
  | [] => Some []
  | x :: xs' =>
      match f x with
      | Some b =>
          match mapE f xs' with
          | Some bs => Some (b :: bs)
          | None => None
          end
      | None => None
      end
  end.

(** ** updateGraph *)

(** The body of the [map] callback of [updateGraph]. *)
Definition avgY (currentTime : Q) (arr : list Entry) : Q :=
  let filteredData := List.filter (within currentTime DATA_RETENTION_WINDOW) arr in
  if Nat.eqb (length filteredData) 0
  then 0
  else fold_left (fun acc d => acc + y d) filteredData 0 / Qlength filteredData.

Definition graphPoint (currentTime : Q) (kd : gmap nat (list Entry))
  (point : nat) : option Q :=
  match kd !! point with
  | Some arr => Some (avgY currentTime arr)
  | None => None
  end.

(** [drawGraph(data)]: the dataset is replaced. *)
Definition drawGraph (data : list Q) (s : State) : State := {|
  threshold := threshold s;
  alertEnabled := alertEnabled s;
  lastBeepTime := lastBeepTime s;
  keypointsData := keypointsData s;
  chart_data := data;
  beeps := beeps s
|}.

(** The inner [forEach] of the pooling loop: [dataLast1Sec.push(entry.y)]. *)
Definition pushRecent (currentTime : Q) (dataLast1Sec : list Q) (entry : Entry)
  : option (list Q) :=
  if within currentTime 1000 entry
  then Some (dataLast1Sec ++ [y entry])
  else Some dataLast1Sec.

(** The outer [forEach] of the pooling loop. *)
Definition poolPoint (currentTime : Q) (kd : gmap nat (list Entry))
  (dataLast1Sec : list Q) (point : nat) : option (list Q) :=
  match kd !! point with
  | Some arr => forEach (pushRecent currentTime) arr dataLast1Sec
  | None => None
  end.

(** [beep(vol, freq, duration)]: the tone is played by the Web Audio API;
    here the call is put on the log, with the clock reading [clock] of the
    tick that makes it. *)
Definition beep (clock vol freq duration : Q) (s : State) : State := {|
  threshold := threshold s;
  alertEnabled := alertEnabled s;
  lastBeepTime := lastBeepTime s;
  keypointsData := keypointsData s;
  chart_data := chart_data s;
  beeps := {| beep_at := clock; beep_vol := vol;
              beep_freq := freq; beep_duration := duration |} :: beeps s
|}.

(** [beep(0.2, 440, 300); lastBeepTime = currentTime;] *)
Definition beepNow (currentTime : Q) (s : State) : State :=
  let s1 := beep currentTime 0.2 440 300 s in
  {|
    threshold := threshold s1;
    alertEnabled := alertEnabled s1;
    lastBeepTime := currentTime;
    keypointsData := keypointsData s1;
    chart_data := chart_data s1;
    beeps := beeps s1
  |}.

(** The alert part of [updateGraph], once [dataLast1Sec] is built. *)
Definition checkAlert (currentTime : Q) (dataLast1Sec : list Q) (s : State)
  : State :=
  if Nat.ltb 0 (length dataLast1Sec) then
    let avgLast1Sec := fold_left Qplus dataLast1Sec 0 / Qlength dataLast1Sec in
    if alertEnabled s && Qltb (threshold s) avgLast1Sec then
      if Qltb 1000 (currentTime - lastBeepTime s)
      then beepNow currentTime s
      else s
    else s
  else s.

Definition updateGraph (currentTime : Q) (s : State) : option State :=
  match mapE (graphPoint currentTime (keypointsData s)) tracked with
  | Some graphData =>
      let s1 := drawGraph graphData s in
      match forEach (poolPoint currentTime (keypointsData s1)) tracked [] with
      | Some dataLast1Sec => Some (checkAlert currentTime dataLast1Sec s1)
      | None => None
      end
  | None => None
  end.

(** ** updateKeypointsData *)

Definition setKeypointsData (kd : gmap nat (list Entry)) (s : State) : State := {|
  threshold := threshold s;
  alertEnabled := alertEnabled s;
  lastBeepTime := lastBeepTime s;
  keypointsData := kd;
  chart_data := chart_data s;
  beeps := beeps s
|}.

(** [keypoints[point]] as a condition: in range and not [undefined]. *)
Definition truthySlot (keypoints : list (option Keypoint)) (point : nat)
  : option Keypoint :=
  match keypoints !! point with
  | Some (Some k) => Some k
  | _ => None
  end.

(** The [forEach] callback of [updateKeypointsData]: push, then filter. *)
Definition ingestPoint (keypoints : list (option Keypoint)) (currentTime : Q)
  (kd : gmap nat (list Entry)) (point : nat) : option (gmap nat (list Entry)) :=
  match truthySlot keypoints point with
  | Some k =>
      match kd !! point with
      | Some arr =>
          let pushed := arr ++ [{| time := currentTime; y := kp_y k |}] in
          Some (<[point :=
                   List.filter (within currentTime DATA_RETENTION_WINDOW) pushed]> kd)
      | None => None
      end
  | None => Some kd
  end.

(** The part of [updateKeypointsData] before the call of [updateGraph].
    [poses] is [None] for [null] (what [renderResult] passes when the
    detector threw). *)
Definition ingest (poses : option (list Pose)) (currentTime : Q) (s : State)
  : option State :=
  match poses with
  | Some (pose0 :: _) =>
      match forEach (ingestPoint (keypoints pose0) currentTime) tracked
                    (keypointsData s) with
      | Some kd => Some (setKeypointsData kd s)
      | None => None
      end
  | _ => Some s
  end.

(** [updateKeypointsData(poses)]; [currentTime] is its own clock reading,
    [graphTime] the one [updateGraph] takes right after. *)
Definition updateKeypointsData (poses : option (list Pose))
  (currentTime graphTime : Q) (s : State) : option State :=
  match ingest poses currentTime s with
  | Some s1 => updateGraph graphTime s1
  | None => None
  end.

(** ** The listeners of setupThresholdControls and the frame loop *)

(** The slider's [input] listener: [threshold = Number(e.target.value)]. *)
Definition onSliderInput (value : Q) (s : State) : State := {|
  threshold := value;
  alertEnabled := alertEnabled s;
  lastBeepTime := lastBeepTime s;
  keypointsData := keypointsData s;
  chart_data := chart_data s;
  beeps := beeps s
|}.

(** The button's [click] listener: [alertEnabled = !alertEnabled]. *)
Definition onToggleClick (s : State) : State := {|
  threshold := threshold s;
  alertEnabled := negb (alertEnabled s);
  lastBeepTime := lastBeepTime s;
  keypointsData := keypointsData s;
  chart_data := chart_data s;
  beeps := beeps s
|}.

(** What can happen to the aggregator on the event loop: a frame of
    [renderResult] with a live detector (it calls [updateKeypointsData] with
    the poses, or with [null]), a move of the slider, a click of the button. *)
Inductive Event :=
  | Frame (poses : option (list Pose)) (currentTime graphTime : Q)
  | SliderInput (value : Q)
  | ToggleClick.

Definition step (s : State) (e : Event) : option State :=
  match e with
  | Frame poses currentTime graphTime =>
      updateKeypointsData poses currentTime graphTime s
  | SliderInput value => Some (onSliderInput value s)
  | ToggleClick => Some (onToggleClick s)
  end.

Definition run (events : list Event) (s : State) : option State :=
  forEach step events s.

(** A pose in which only keypoint 0 is seen, at height [y0]. *)
Definition nose_only (y0 : Q) : Pose :=
  {| keypoints := [Some {| kp_x := 0; kp_y := y0; kp_score := 1 |}] |}.

(** ** Reading the model *)

(** The keys the object literal [keypointsData] is created with are there. *)
Definition wf_data (kd : gmap nat (list Entry)) : Prop :=
  Forall (fun point => is_Some (kd !! point)) tracked.

Definition wf (s : State) : Prop := wf_data (keypointsData s).

(** [keypointsData[point]] when the key is known to be there. *)
Definition history (kd : gmap nat (list Entry)) (point : nat) : list Entry :=
  default [] (kd !! point).

(** The slot of a tracked keypoint in the first pose, if it is there. *)
Definition present (poses : option (list Pose)) (point : nat) : option Keypoint :=
  match poses with
  | Some (pose0 :: _) => truthySlot (keypoints pose0) point
  | _ => None
  end.

(** The observation pushed for a keypoint seen at [currentTime]. *)
Definition observation (currentTime : Q) (k : Keypoint) : Entry :=
  {| time := currentTime; y := kp_y k |}.

(** What one call does to one history. *)
Definition ingestHistory (slot : option Keypoint) (currentTime : Q)
  (arr : list Entry) : list Entry :=
  match slot with
  | Some k =>
      List.filter (within currentTime DATA_RETENTION_WINDOW)
                  (arr ++ [observation currentTime k])
  | None => arr
  end.

(** The pooled 1-second set, in the words of the description: every
    observation of the five histories with [currentTime - time < 1000]. *)
Definition pooled (currentTime : Q) (kd : gmap nat (list Entry)) : list Q :=
  flat_map (fun point => map y (List.filter (within currentTime 1000) (history kd point)))
           tracked.

(** Sum and arithmetic mean of a list of numbers. *)
Definition Qsum (l : list Q) : Q := fold_right Qplus 0 l.

Definition mean (l : list Q) : Q := Qsum l / Qlength l.

(** The alert of the source: the call [beep(0.2, 440, 300)] is logged and
    [lastBeepTime] takes the clock reading. *)
Definition alert_fires (currentTime : Q) (s s' : State) : Prop :=
  beeps s' = {| beep_at := currentTime; beep_vol := 0.2;
                beep_freq := 440; beep_duration := 300 |} :: beeps s
  /\ lastBeepTime s' = currentTime.

Definition no_alert (s s' : State) : Prop :=
  beeps s' = beeps s /\ lastBeepTime s' = lastBeepTime s.

(** Every entry of the five histories is inside the retention window. *)
Definition all_within (currentTime : Q) (kd : gmap nat (list Entry)) : Prop :=
  forall point arr e,
    In point tracked -> kd !! point = Some arr -> In e arr ->
    currentTime - time e < DATA_RETENTION_WINDOW.

(** A beep made more than 1000 ms after another. *)
Definition long_after (b b' : Beep) : Prop := 1000 < beep_at b - beep_at b'.

(** The log of beeps and [lastBeepTime] go together: every beep is more
    than 1000 ms after all the earlier ones, and [lastBeepTime] is the time
    of the latest. *)
Definition log_ok (s : State) : Prop :=
  StronglySorted long_after (beeps s)
  /\ match beeps s with
     | [] => True
     | b :: _ => beep_at b = lastBeepTime s
     end.

(** Slouching through three frames, 1500 ms apart, with the alert on. *)
Definition three_frames : list Event :=
  [ToggleClick;
   Frame (Some [nose_only 400]) 1500 1500;
   Frame (Some [nose_only 400]) 3000 3000;
   Frame (Some [nose_only 400]) 4500 4500].

(** ** Runs used as examples *)

(** A pose whose [keypoints] array is empty: every tracked keypoint is
    absent from it. *)
Definition no_keypoints : Pose := {| keypoints := [] |}.

(** Keypoint 0 seen once at time 0, then a frame without any pose 6 s later. *)
Definition stale_run : list Event :=
  [Frame (Some [nose_only 100]) 0 0; Frame (Some []) 6000 6000].

(** Keypoint 0 seen once at time 0, then a pose without it 6 s later. *)
Definition occluded_run : list Event :=
  [Frame (Some [nose_only 100]) 0 0; Frame (Some [no_keypoints]) 6000 6000].

(** Alert switched on, keypoint 0 at height 400 at [t] and at [t + 500];
    the threshold keeps its default 300. *)
Definition two_frames (t : Q) : list Event :=
  [ToggleClick;
   Frame (Some [nose_only 400]) t t;
   Frame (Some [nose_only 400]) (t + 500) (t + 500)].

(** A state in which keypoint 0 was seen at height 400 at time 2000 and no
    beep was made yet. *)
Definition slouching (enabled : bool) : State := {|
  threshold := 300;
  alertEnabled := enabled;
  lastBeepTime := 0;
  keypointsData := <[0%nat := [{| time := 2000; y := 400 |}]]> (keypointsData init);
  chart_data := [];
  beeps := []
|}.

(** Alert switched on at start-up, then keypoint 0 pushed at height 400 by
    a call that reads the clock at 500: the state in which that call goes on
    to [updateGraph]. *)
Definition early_slouch : State :=
  setKeypointsData
    (<[0%nat := [{| time := 500; y := 400 |}]]> (keypointsData init))
    (onToggleClick init).

(** ** Further readings of the aggregator *)

(** The state with every history pruned at [now], as the filter of
    [updateKeypointsData] would leave it. *)
Definition pruneAll (now : Q) (s : State) : State :=
  setKeypointsData
    (List.filter (within now DATA_RETENTION_WINDOW) <$> keypointsData s) s.

(** Every entry of a history is within the retention window of its newest
    (last) entry. *)
Definition anchored (h : list Entry) : Prop :=
  match last h with
  | Some newest =>
      Forall (fun e => time newest - time e < DATA_RETENTION_WINDOW) h
  | None => True
  end.

(** Order of two entries by time. *)
Definition by_time (a b : Entry) : Prop := time a <= time b.

(** The clock readings [updateKeypointsData] takes along a run. *)
Definition frame_clocks (events : list Event) : list Q :=
  flat_map (fun e => match e with
                     | Frame _ currentTime _ => [currentTime]
                     | _ => []
                     end) events.

Definition is_click (e : Event) : bool :=
  match e with
  | ToggleClick => true
  | _ => false
  end.

Definition is_frame (e : Event) : bool :=
  match e with
  | Frame _ _ _ => true
  | _ => false
  end.

(** A property of histories holds of the five tracked ones. *)
Definition hist_all (P : list Entry -> Prop) (s : State) : Prop :=
  forall point h,
    In point tracked -> keypointsData s !! point = Some h -> P h.

(** A history in order of time, with no entry later than [hw]. *)
Definition sorted_upto (hw : Q) (h : list Entry) : Prop :=
  StronglySorted by_time h /\ Forall (fun e => time e <= hw) h.

(** The beep the source makes, at clock reading [clock]. *)
Definition standard_beep (clock : Q) : Beep :=
  {| beep_at := clock; beep_vol := 0.2; beep_freq := 440; beep_duration := 300 |}.

(** ** The inference-time panel: beginEstimatePosesStats, endEstimatePosesStats *)

(** The first argument of [stats.customFpsPanel.update]:
    [1000.0 / averageInferenceTime], which is [Infinity] for a zero average. *)
Inductive PanelValue :=
  | Finite (v : Q)
  | Infinity.

(** A logged call [stats.customFpsPanel.update(value, maxValue)], with the
    clock reading of the call. *)
Record PanelUpdate := {
  panel_at : Q;
  panel_value : PanelValue;
  panel_maxValue : Q
}.

(** The module-level variables of the inference statistics and the log of
    the panel.  [startInferenceTime] is declared without a value: [None] is
    [undefined]. *)
Record Stats := {
  startInferenceTime : option Q;
  numInferences : nat;
  inferenceTimeSum : Q;
  lastPanelUpdate : Q;
  panel : list PanelUpdate
}.

Definition stats_init : Stats := {|
  startInferenceTime := None;
  numInferences := 0;
  inferenceTimeSum := 0;
  lastPanelUpdate := 0;
  panel := []
|}.

(** [startInferenceTime = (performance || Date).now()]. *)
Definition beginEstimatePosesStats (clock : Q) (st : Stats) : Stats := {|
  startInferenceTime := Some clock;
  numInferences := numInferences st;
  inferenceTimeSum := inferenceTimeSum st;
  lastPanelUpdate := lastPanelUpdate st;
  panel := panel st
|}.

Definition fps (averageInferenceTime : Q) : PanelValue :=
  if Qeq_bool averageInferenceTime 0
  then Infinity
  else Finite (1000 / averageInferenceTime).

(** [endEstimatePosesStats()], reading the clock at [endInferenceTime].
    With [startInferenceTime] still [undefined] the sum turns into [NaN],
    which the numbers of the model do not have: the result is [None] there
    ([renderResult] always calls [beginEstimatePosesStats] first). *)
Definition endEstimatePosesStats (endInferenceTime : Q) (st : Stats)
  : option Stats :=
  match startInferenceTime st with
  | None => None
  | Some start =>
      let sum := inferenceTimeSum st + (endInferenceTime - start) in
      let n := S (numInferences st) in
      let panelUpdateMilliseconds := 1000 in
      if Qle_bool panelUpdateMilliseconds (endInferenceTime - lastPanelUpdate st)
      then
        let averageInferenceTime := sum / inject_Z (Z.of_nat n) in
        Some {| startInferenceTime := Some start;
                numInferences := 0;
                inferenceTimeSum := 0;
                lastPanelUpdate := endInferenceTime;
                panel := {| panel_at := endInferenceTime;
                            panel_value := fps averageInferenceTime;
                            panel_maxValue := 120 |} :: panel st |}
      else
        Some {| startInferenceTime := Some start;
                numInferences := n;
                inferenceTimeSum := sum;
                lastPanelUpdate := lastPanelUpdate st;
                panel := panel st |}
  end.

(** One timed inference: the two calls around [estimatePoses], with their
    clock readings. *)
Definition timed (st : Stats) (span : Q * Q) : option Stats :=
  endEstimatePosesStats (snd span) (beginEstimatePosesStats (fst span) st).

Definition duration (span : Q * Q) : Q := snd span - fst span.

(** A panel update at least 1000 ms after another. *)
Definition panel_after (u u' : PanelUpdate) : Prop :=
  1000 <= panel_at u - panel_at u'.

Definition panel_ok (st : Stats) : Prop :=
  StronglySorted panel_after (panel st)
  /\ match panel st with
     | [] => True
     | u :: _ => panel_at u = lastPanelUpdate st
     end.

(** A value the panel can show for inference times that are not negative. *)
Definition shown_positive (v : PanelValue) : Prop :=
  match v with
  | Finite q => 0 < q
  | Infinity => True
  end.

(** ** The detector: createDetector *)

(** [STATE.modelConfig], as far as [index.js] reads it. *)
Record ModelConfig := {
  type : string;
  customModel : string;
  enableTracking : bool
}.

(** [STATE] of [params.js], as far as [index.js] reads and writes it. *)
Record Params := {
  model : string;
  backend : string;
  modelConfig : ModelConfig;
  isTargetFPSChanged : bool;
  isSizeOptionChanged : bool;
  isModelChanged : bool;
  isFlagChanged : bool;
  isBackendChanged : bool
}.

(** The constants of the pose-detection library the source names:
    [posedetection.SupportedModels.*], [posedetection.movenet.modelType.*]
    and [mpPose.VERSION]. *)
Record Library := {
  PoseNet : string;
  BlazePose : string;
  MoveNet : string;
  SINGLEPOSE_LIGHTNING : string;
  SINGLEPOSE_THUNDER : string;
  MULTIPOSE_LIGHTNING : string;
  VERSION : string
}.

(** The second argument of [posedetection.createDetector], one constructor
    per object literal of the source; [None] is a key that is not set (or
    set to [undefined]). *)
Inductive DetectorConfig :=
  | PoseNetConfig (quantBytes : nat) (architecture : string) (outputStride : nat)
      (inputResolution : nat * nat) (multiplier : Q)
  | MediapipeConfig (runtime modelType solutionPath : string)
  | TfjsConfig (runtime modelType : string)
  | MoveNetConfig (modelType modelUrl : option string) (tracking : option bool).

(** [s.split('-')[0]]: what comes before the first dash. *)
Fixpoint before_dash (s : string) : string :=
  match s with
  | EmptyString => EmptyString
  | String c rest =>
      if Ascii.eqb c "-"%char then EmptyString else String c (before_dash rest)
  end.

(** The statements under [case posedetection.SupportedModels.MoveNet]. *)
Definition moveNetCase (lib : Library) (st : Params)
  : option (string * DetectorConfig) :=
  let modelType :=
    if String.eqb (type (modelConfig st)) "lightning"
    then Some (SINGLEPOSE_LIGHTNING lib)
    else if String.eqb (type (modelConfig st)) "thunder"
    then Some (SINGLEPOSE_THUNDER lib)
    else if String.eqb (type (modelConfig st)) "multipose"
    then Some (MULTIPOSE_LIGHTNING lib)
    else None in
  let modelUrl :=
    if negb (String.eqb (customModel (modelConfig st)) "")
    then Some (customModel (modelConfig st))
    else None in
  let tracking :=
    if String.eqb (type (modelConfig st)) "multipose"
    then Some (enableTracking (modelConfig st))
    else None in
  Some (model st, MoveNetConfig modelType modelUrl tracking).

(** [createDetector()]: the call of [posedetection.createDetector] it
    returns, as the pair of its arguments, or [None] when the [switch] has no
    matching case and the function returns [undefined].  The BlazePose case
    has no [return] after its [else if]: it goes on into the MoveNet case. *)
Definition createDetector (lib : Library) (st : Params)
  : option (string * DetectorConfig) :=
  if String.eqb (model st) (PoseNet lib) then
    Some (model st, PoseNetConfig 4 "MobileNetV1" 16 (500, 500)%nat 0.75)
  else if String.eqb (model st) (BlazePose lib) then
    let runtime := before_dash (backend st) in
    if String.eqb runtime "mediapipe" then
      Some (model st,
            MediapipeConfig runtime (type (modelConfig st))
              (String.append "https://cdn.jsdelivr.net/npm/@mediapipe/pose@"
                             (VERSION lib)))
    else if String.eqb runtime "tfjs" then
      Some (model st, TfjsConfig runtime (type (modelConfig st)))
    else moveNetCase lib st
  else if String.eqb (model st) (MoveNet lib) then
    moveNetCase lib st
  else None.

(** ** The render loop: checkGuiUpdate, renderResult, renderPrediction *)

(** What [posedetection.createDetector] does with a request. *)
Inductive Creation :=
  | Resolves
  | Rejects.

(** What [detector.estimatePoses] (or [estimatePosesGPU]) does on a frame. *)
Inductive Estimate :=
  | Estimated (poses : list Pose)
  | Failed.

(** The page: [STATE], the aggregator, the inference statistics, whether
    [detector] holds a detector ([false] for [null] and [undefined]),
    [useGpuRenderer], and the logs of [detector.dispose()], of [alert(error)]
    and of the poses handed to [renderer.draw], latest first. *)
Record Page := {
  STATE : Params;
  aggregator : State;
  stats : Stats;
  detector : bool;
  useGpuRenderer : bool;
  disposed : nat;
  alerted : nat;
  drawn : list (option (list Pose))
}.

Definition setFlags (targetFPS size modelChanged flagChanged backendChanged : bool)
  (st : Params) : Params := {|
  model := model st;
  backend := backend st;
  modelConfig := modelConfig st;
  isTargetFPSChanged := targetFPS;
  isSizeOptionChanged := size;
  isModelChanged := modelChanged;
  isFlagChanged := flagChanged;
  isBackendChanged := backendChanged
|}.

(** [checkGuiUpdate()], taken as one step; [outcome] is what the library
    does if a detector is asked for.  Setting up the camera, cancelling the
    animation frame and setting the backend are calls to other modules. *)
Definition checkGuiUpdate (lib : Library) (outcome : Creation) (p : Page)
  : Page :=
  let st0 := STATE p in
  let st1 :=
    if isTargetFPSChanged st0 || isSizeOptionChanged st0
    then setFlags false false (isModelChanged st0) (isFlagChanged st0)
                  (isBackendChanged st0) st0
    else st0 in
  if isModelChanged st1 || isFlagChanged st1 || isBackendChanged st1 then
    let disposed1 := if detector p then S (disposed p) else disposed p in
    let '(detector1, alerted1) :=
      match createDetector lib st1 with
      | Some _ =>
          match outcome with
          | Resolves => (true, alerted p)
          | Rejects => (false, S (alerted p))
          end
      | None => (false, alerted p)
      end in
    {| STATE := setFlags (isTargetFPSChanged st1) (isSizeOptionChanged st1)
                         false false false st1;
       aggregator := aggregator p;
       stats := stats p;
       detector := detector1;
       useGpuRenderer := useGpuRenderer p;
       disposed := disposed1;
       alerted := alerted1;
       drawn := drawn p |}
  else
    {| STATE := st1;
       aggregator := aggregator p;
       stats := stats p;
       detector := detector p;
       useGpuRenderer := useGpuRenderer p;
       disposed := disposed p;
       alerted := alerted p;
       drawn := drawn p |}.

(** The four clock readings of a frame: the two of the statistics, the one
    of [updateKeypointsData] and the one of [updateGraph]. *)
Record Clocks := {
  beginTime : Q;
  endTime : Q;
  currentTime : Q;
  graphTime : Q
}.

(** Whether the [try] block of [renderResult] throws. *)
Definition throws (p : Page) (est : Estimate) : bool :=
  (useGpuRenderer p && negb (String.eqb (model (STATE p)) "PoseNet"))
  || match est with
     | Estimated _ => false
     | Failed => true
     end.

(** [renderResult()], once the video is ready. *)
Definition renderResult (est : Estimate) (c : Clocks) (p : Page) : option Page :=
  if detector p then
    let st1 := beginEstimatePosesStats (beginTime c) (stats p) in
    let poses :=
      if throws p est then None
      else match est with
           | Estimated ps => Some ps
           | Failed => None
           end in
    match endEstimatePosesStats (endTime c) st1 with
    | Some st2 =>
        match updateKeypointsData poses (currentTime c) (graphTime c)
                                  (aggregator p) with
        | Some a =>
            Some {| STATE := STATE p;
                    aggregator := a;
                    stats := st2;
                    detector := negb (throws p est);
                    useGpuRenderer := useGpuRenderer p;
                    disposed := if throws p est then S (disposed p) else disposed p;
                    alerted := if throws p est then S (alerted p) else alerted p;
                    drawn := poses :: drawn p |}
        | None => None
        end
    | None => None
    end
  else
    Some {| STATE := STATE p;
            aggregator := aggregator p;
            stats := stats p;
            detector := false;
            useGpuRenderer := useGpuRenderer p;
            disposed := disposed p;
            alerted := alerted p;
            drawn := None :: drawn p |}.

(** [renderPrediction()], up to the request of the next animation frame. *)
Definition renderPrediction (lib : Library) (outcome : Creation)
  (est : Estimate) (c : Clocks) (p : Page) : option Page :=
  let p1 := checkGuiUpdate lib outcome p in
  if negb (isModelChanged (STATE p1))
  then renderResult est c p1
  else Some p1.

(** [STATE] written by the controls of the option panel (another module). *)
Definition setSTATE (st : Params) (p : Page) : Page := {|
  STATE := st;
  aggregator := aggregator p;
  stats := stats p;
  detector := detector p;
  useGpuRenderer := useGpuRenderer p;
  disposed := disposed p;
  alerted := alerted p;
  drawn := drawn p
|}.

(** What the user does with the slider and the button between two turns. *)
Inductive Control :=
  | Slide (value : Q)
  | Click.

Definition control_event (c : Control) : Event :=
  match c with
  | Slide value => SliderInput value
  | Click => ToggleClick
  end.

Definition setAggregator (a : State) (p : Page) : Page := {|
  STATE := STATE p;
  aggregator := a;
  stats := stats p;
  detector := detector p;
  useGpuRenderer := useGpuRenderer p;
  disposed := disposed p;
  alerted := alerted p;
  drawn := drawn p
|}.

(** One turn of the loop: what the user did with the slider and the button
    and what the option panel did to [STATE] since the last turn, what the
    library does in this one, and the clock readings. *)
Record Turn := {
  turn_controls : list Control;
  turn_gui : Params -> Params;
  turn_outcome : Creation;
  turn_estimate : Estimate;
  turn_clocks : Clocks
}.

Definition turn (lib : Library) (p : Page) (t : Turn) : option Page :=
  match run (map control_event (turn_controls t)) (aggregator p) with
  | Some a =>
      renderPrediction lib (turn_outcome t) (turn_estimate t) (turn_clocks t)
                       (setAggregator a (setSTATE (turn_gui t (STATE p)) p))
  | None => None
  end.

Definition loop (lib : Library) (turns : list Turn) (p : Page) : option Page :=
  forEach (turn lib) turns p.

(** The option panel asked for no new detector. *)
Definition no_change (st : Params) : bool :=
  negb (isModelChanged st || isFlagChanged st || isBackendChanged st).

(** [app()], up to the first call of [renderPrediction]: [hasModel] is
    [urlParams.has('model')], [gpuRenderer] is [urlParams.get('gpuRenderer')],
    [st] is [STATE] as [setupDatGui] leaves it.  [None]: the loop is not
    started (no model in the query string, or the library rejects the
    request, which [app] does not catch). *)
Definition app (lib : Library) (hasModel : bool) (gpuRenderer : option string)
  (st : Params) (outcome : Creation) : option Page :=
  if negb hasModel then None
  else
    let isWebGPU := String.eqb (backend st) "tfjs-webgpu" in
    let live :=
      match createDetector lib st with
      | Some _ =>
          match outcome with
          | Resolves => Some true
          | Rejects => None
          end
      | None => Some false
      end in
    match live with
    | Some d =>
        Some {| STATE := st;
                aggregator := init;
                stats := stats_init;
                detector := d;
                useGpuRenderer :=
                  match gpuRenderer with
                  | Some v => String.eqb v "true"
                  | None => false
                  end && isWebGPU;
                disposed := 0;
                alerted := 0;
                drawn := [] |}
    | None => None
    end.

(** The library constants, with the names the library gives them. *)
Definition library (version : string) : Library := {|
  PoseNet := "PoseNet";
  BlazePose := "BlazePose";
  MoveNet := "MoveNet";
  SINGLEPOSE_LIGHTNING := "SinglePose.Lightning";
  SINGLEPOSE_THUNDER := "SinglePose.Thunder";
  MULTIPOSE_LIGHTNING := "MultiPose.Lightning";
  VERSION := version
|}.

(** Pages and turns used as examples: [STATE] with no change flag set, the
    page [app] starts with, and a turn in which the option panel does
    nothing, the library answers, and the four clock readings are [t]. *)
Definition quiet_params (m b ty : string) : Params := {|
  model := m;
  backend := b;
  modelConfig := {| type := ty; customModel := ""; enableTracking := false |};
  isTargetFPSChanged := false;
  isSizeOptionChanged := false;
  isModelChanged := false;
  isFlagChanged := false;
  isBackendChanged := false
|}.

Definition plain_turn (controls : list Control) (est : Estimate) (t : Q) : Turn := {|
  turn_controls := controls;
  turn_gui := fun st => st;
  turn_outcome := Resolves;
  turn_estimate := est;
  turn_clocks := {| beginTime := t; endTime := t; currentTime := t; graphTime := t |}
|}.

(** ** The same code over IEEE doubles *)

Module Double.

Import PrimFloat.
Local Open Scope float_scope.
#[local] Set Warnings "-inexact-float".

(** [arr.length], or a counter after [n] increments, as a double (exact up
    to 2^53, beyond the length of any array). *)
Fixpoint of_nat (n : nat) : float :=
  match n with
  | O => 0
  | S n' => of_nat n' + 1
  end.

Record Keypoint := { kp_x : float; kp_y : float; kp_score : float }.

Record Pose := { keypoints : list (option Keypoint) }.

Record Entry := { time : float; y : float }.

Record Beep := {
  beep_at : float;
  beep_vol : float;
  beep_freq : float;
  beep_duration : float
}.

Record State := {
  threshold : float;
  alertEnabled : bool;
  lastBeepTime : float;
  keypointsData : gmap nat (list Entry);
  chart_data : list float;
  beeps : list Beep
}.

Definition DATA_RETENTION_WINDOW : float := 5000.

Definition init : State := {|
  threshold := 300;
  alertEnabled := false;
  lastBeepTime := 0;
  keypointsData :=
    <[0%nat := []]> (<[1%nat := []]> (<[2%nat := []]>
      (<[3%nat := []]> (<[4%nat := []]> ∅))));
  chart_data := [];
  beeps := []
|}.

(** The callback [d => currentTime - d.time < window]. *)
Definition within (currentTime window : float) (d : Entry) : bool :=
  currentTime - time d <? window.

(** The body of the [map] callback of [updateGraph]. *)
Definition avgY (currentTime : float) (arr : list Entry) : float :=
  let filteredData := List.filter (within currentTime DATA_RETENTION_WINDOW) arr in
  if Nat.eqb (length filteredData) 0
  then 0
  else fold_left (fun acc d => acc + y d) filteredData 0
       / of_nat (length filteredData).

Definition graphPoint (currentTime : float) (kd : gmap nat (list Entry))
  (point : nat) : option float :=
  match kd !! point with
  | Some arr => Some (avgY currentTime arr)
  | None => None
  end.

Definition drawGraph (data : list float) (s : State) : State := {|
  threshold := threshold s;
  alertEnabled := alertEnabled s;
  lastBeepTime := lastBeepTime s;
  keypointsData := keypointsData s;
  chart_data := data;
  beeps := beeps s
|}.

Definition pushRecent (currentTime : float) (dataLast1Sec : list float)
  (entry : Entry) : option (list float) :=
  if within currentTime 1000 entry
  then Some (dataLast1Sec ++ [y entry])
  else Some dataLast1Sec.

Definition poolPoint (currentTime : float) (kd : gmap nat (list Entry))
  (dataLast1Sec : list float) (point : nat) : option (list float) :=
  match kd !! point with
  | Some arr => forEach (pushRecent currentTime) arr dataLast1Sec
  | None => None
  end.

Definition beep (clock vol freq duration : float) (s : State) : State := {|
  threshold := threshold s;
  alertEnabled := alertEnabled s;
  lastBeepTime := lastBeepTime s;
  keypointsData := keypointsData s;
  chart_data := chart_data s;
  beeps := {| beep_at := clock; beep_vol := vol;
              beep_freq := freq; beep_duration := duration |} :: beeps s
|}.

(** [beep(0.2, 440, 300); lastBeepTime = currentTime;] *)
Definition beepNow (currentTime : float) (s : State) : State :=
  let s1 := beep currentTime 0.2 440 300 s in
  {|
    threshold := threshold s1;
    alertEnabled := alertEnabled s1;
    lastBeepTime := currentTime;
    keypointsData := keypointsData s1;
    chart_data := chart_data s1;
    beeps := beeps s1
  |}.

(** The alert part of [updateGraph], once [dataLast1Sec] is built. *)
Definition checkAlert (currentTime : float) (dataLast1Sec : list float)
  (s : State) : State :=
  if Nat.ltb 0 (length dataLast1Sec) then
    let avgLast1Sec :=
      fold_left add dataLast1Sec 0 / of_nat (length dataLast1Sec) in
    if alertEnabled s && (threshold s <? avgLast1Sec) then
      if 1000 <? currentTime - lastBeepTime s
      then beepNow currentTime s
      else s
    else s
  else s.

Definition updateGraph (currentTime : float) (s : State) : option State :=
  match mapE (graphPoint currentTime (keypointsData s)) tracked with
  | Some graphData =>
      let s1 := drawGraph graphData s in
      match forEach (poolPoint currentTime (keypointsData s1)) tracked [] with
      | Some dataLast1Sec => Some (checkAlert currentTime dataLast1Sec s1)
      | None => None
      end
  | None => None
  end.

Definition setKeypointsData (kd : gmap nat (list Entry)) (s : State) : State := {|
  threshold := threshold s;
  alertEnabled := alertEnabled s;
  lastBeepTime := lastBeepTime s;
  keypointsData := kd;
  chart_data := chart_data s;
  beeps := beeps s
|}.

Definition truthySlot (keypoints : list (option Keypoint)) (point : nat)
  : option Keypoint :=
  match keypoints !! point with
  | Some (Some k) => Some k
  | _ => None
  end.

Definition ingestPoint (keypoints : list (option Keypoint)) (currentTime : float)
  (kd : gmap nat (list Entry)) (point : nat) : option (gmap nat (list Entry)) :=
  match truthySlot keypoints point with
  | Some k =>
      match kd !! point with
      | Some arr =>
          let pushed := arr ++ [{| time := currentTime; y := kp_y k |}] in
          Some (<[point :=
                   List.filter (within currentTime DATA_RETENTION_WINDOW) pushed]> kd)
      | None => None
      end
  | None => Some kd
  end.

Definition ingest (poses : option (list Pose)) (currentTime : float) (s : State)
  : option State :=
  match poses with
  | Some (pose0 :: _) =>
      match forEach (ingestPoint (keypoints pose0) currentTime) tracked
                    (keypointsData s) with
      | Some kd => Some (setKeypointsData kd s)
      | None => None
      end
  | _ => Some s
  end.

Definition updateKeypointsData (poses : option (list Pose))
  (currentTime graphTime : float) (s : State) : option State :=
  match ingest poses currentTime s with
  | Some s1 => updateGraph graphTime s1
  | None => None
  end.

(** The button's [click] listener. *)
Definition onToggleClick (s : State) : State := {|
  threshold := threshold s;
  alertEnabled := negb (alertEnabled s);
  lastBeepTime := lastBeepTime s;
  keypointsData := keypointsData s;
  chart_data := chart_data s;
  beeps := beeps s
|}.

(** Frames one after the other: the poses and the two clock readings of
    each call of [updateKeypointsData]. *)
Definition frames (fs : list (option (list Pose) * float * float)) (s : State)
  : option State :=
  forEach (fun s f => updateKeypointsData (fst (fst f)) (snd (fst f)) (snd f) s)
          fs s.

(** A pose in which only keypoint 0 is seen, at height [y0]. *)
Definition nose_only (y0 : float) : Pose :=
  {| keypoints := [Some {| kp_x := 0; kp_y := y0; kp_score := 1 |}] |}.

(** *** Reading the model *)

Definition wf (s : State) : Prop :=
  Forall (fun point => is_Some (keypointsData s !! point)) tracked.

Definition history (kd : gmap nat (list Entry)) (point : nat) : list Entry :=
  default [] (kd !! point).

(** The mean as the source computes it: the sum from the left, starting at
    0, divided by the count. *)
Definition fmean (l : list float) : float :=
  fold_left add l 0 / of_nat (length l).

(** The heights of the entries of a history with
    [currentTime - time < ms], the difference and the test being those of
    doubles. *)
Definition recent (ms currentTime : float) (arr : list Entry) : list float :=
  map y (List.filter (fun e => currentTime - time e <? ms) arr).

(** The pooled set of the last second, over the five tracked keypoints. *)
Definition pooled (currentTime : float) (kd : gmap nat (list Entry)) : list float :=
  flat_map (fun point => recent 1000 currentTime (history kd point)) tracked.

Definition alert_fires (currentTime : float) (s s' : State) : Prop :=
  beeps s' = {| beep_at := currentTime; beep_vol := 0.2;
                beep_freq := 440; beep_duration := 300 |} :: beeps s
  /\ lastBeepTime s' = currentTime.

Definition no_alert (s s' : State) : Prop :=
  beeps s' = beeps s /\ lastBeepTime s' = lastBeepTime s.

(** The double nearest to 100.1. *)
Definition h100_1 : float := 0x1.9066666666666p+6.

(** Keypoint 0 seen three times at the height [h100_1]. *)
Definition three_equal_heights : list (option (list Pose) * float * float) :=
  [(Some [nose_only h100_1], 0, 0);
   (Some [nose_only h100_1], 100, 100);
   (Some [nose_only h100_1], 200, 200)].

(** A state in which keypoint 0 was seen at height 400 at time 2000 and no
    beep was made yet. *)
Definition slouching (enabled : bool) : State := {|
  threshold := 300;
  alertEnabled := enabled;
  lastBeepTime := 0;
  keypointsData := <[0%nat := [{| time := 2000; y := 400 |}]]> (keypointsData init);
  chart_data := [];
  beeps := []
|}.

(** Alert on, threshold 300, five heights around it seen at time 2000: their
    mean is 300 in exact arithmetic and 300.00000000000006 in doubles. *)
Definition near_threshold : State := {|
  threshold := 300;
  alertEnabled := true;
  lastBeepTime := 0;
  keypointsData :=
    <[0%nat := [{| time := 2000; y := 296 |}; {| time := 2000; y := 296 |};
                {| time := 2000; y := 300.7 |}; {| time := 2000; y := 303.6 |};
                {| time := 2000; y := 303.7 |}]]> (keypointsData init);
  chart_data := [];
  beeps := []
|}.

(** *** The inference-time panel *)

(** A logged call [stats.customFpsPanel.update(value, maxValue)]. *)
Record PanelUpdate := {
  panel_at : float;
  panel_value : float;
  panel_maxValue : float
}.

(** [startInferenceTime] is declared without a value; in the subtraction of
    [endEstimatePosesStats] [undefined] counts as [NaN], which is what the
    field holds until the first [beginEstimatePosesStats]. *)
Record Stats := {
  startInferenceTime : float;
  numInferences : float;
  inferenceTimeSum : float;
  lastPanelUpdate : float;
  panel : list PanelUpdate
}.

Definition stats_init : Stats := {|
  startInferenceTime := nan;
  numInferences := 0;
  inferenceTimeSum := 0;
  lastPanelUpdate := 0;
  panel := []
|}.

Definition beginEstimatePosesStats (clock : float) (st : Stats) : Stats := {|
  startInferenceTime := clock;
  numInferences := numInferences st;
  inferenceTimeSum := inferenceTimeSum st;
  lastPanelUpdate := lastPanelUpdate st;
  panel := panel st
|}.

Definition endEstimatePosesStats (endInferenceTime : float) (st : Stats) : Stats :=
  let sum := inferenceTimeSum st + (endInferenceTime - startInferenceTime st) in
  let n := numInferences st + 1 in
  let panelUpdateMilliseconds := 1000 in
  if panelUpdateMilliseconds <=? endInferenceTime - lastPanelUpdate st then
    let averageInferenceTime := sum / n in
    {| startInferenceTime := startInferenceTime st;
       numInferences := 0;
       inferenceTimeSum := 0;
       lastPanelUpdate := endInferenceTime;
       panel := {| panel_at := endInferenceTime;
                   panel_value := 1000 / averageInferenceTime;
                   panel_maxValue := 120 |} :: panel st |}
  else
    {| startInferenceTime := startInferenceTime st;
       numInferences := n;
       inferenceTimeSum := sum;
       lastPanelUpdate := lastPanelUpdate st;
       panel := panel st |}.

(** One timed inference: the two calls around [estimatePoses], with their
    clock readings. *)
Definition timed (st : Stats) (span : float * float) : Stats :=
  endEstimatePosesStats (snd span) (beginEstimatePosesStats (fst span) st).

Definition duration (span : float * float) : float := snd span - fst span.

End Double.

(** ** Proof steps used more than once *)

(** The five keys of a concrete state are there. *)
Ltac solve_wf :=
  unfold wf, wf_data, tracked;
  repeat (constructor; [eexists; reflexivity|]); constructor.

(** One of the five tracked indices. *)
Ltac each_tracked H :=
  unfold tracked in H;
  repeat (destruct H as [<-|H]; [reflexivity|]); destruct H.

(** ** Numbers: lemmas *)

Lemma Qltb_lt (a b : Q) : Qltb a b = true <-> a < b.
Proof.
  unfold Qltb. rewrite negb_true_iff.
  split.
  - intros H. apply Qnot_le_lt. intros Hle.
    apply Qle_bool_iff in Hle. congruence.
  - intros H. destruct (Qle_bool b a) eqn:E; [|reflexivity].
    apply Qle_bool_iff in E. exfalso. exact (Qlt_not_le _ _ H E).
Qed.

Lemma Qltb_ge (a b : Q) : Qltb a b = false <-> b <= a.
Proof.
  unfold Qltb. rewrite negb_false_iff. apply Qle_bool_iff.
Qed.

Lemma within_lt now w d : within now w d = true <-> now - time d < w.
Proof. apply Qltb_lt. Qed.

Lemma within_self now k :
  within now DATA_RETENTION_WINDOW (observation now k) = true.
Proof.
  apply within_lt. simpl.
  assert (E : now - now == 0) by ring.
  rewrite E. reflexivity.
Qed.

Lemma fold_left_Qplus_acc (l : list Q) (a : Q) :
  fold_left Qplus l a == a + Qsum l.
Proof.
  revert a. induction l as [|x l IH]; intros a; simpl.
  - ring.
  - rewrite IH. ring.
Qed.

Lemma fold_left_Qsum (l : list Q) : fold_left Qplus l 0 == Qsum l.
Proof. rewrite fold_left_Qplus_acc. ring. Qed.

Lemma fold_left_y_acc (l : list Entry) (a : Q) :
  fold_left (fun acc d => acc + y d) l a == a + Qsum (map y l).
Proof.
  revert a. induction l as [|x l IH]; intros a; simpl.
  - ring.
  - rewrite IH. ring.
Qed.

Lemma Qlength_map {A B} (f : A -> B) (l : list A) : Qlength (map f l) = Qlength l.
Proof. unfold Qlength. now rewrite length_map. Qed.

Lemma Qlength_pos {A} (l : list A) : l <> [] -> 0 < Qlength l.
Proof.
  destruct l as [|a l]; [congruence|]. intros _.
  unfold Qlength, Qlt. simpl. lia.
Qed.

(** ** The loops *)


Lemma forEach_app {A S} (f : S -> A -> option S) (xs ys : list A) (acc : S) :
  forEach f (xs ++ ys) acc =
  match forEach f xs acc with
  | Some acc' => forEach f ys acc'
  | None => None
  end.
Proof.
  revert acc. induction xs as [|x xs IH]; intros acc; simpl; [reflexivity|].
  destruct (f acc x); [apply IH|reflexivity].
Qed.

(** The inner pooling loop pushes the recent heights, in order. *)
Lemma forEach_pushRecent now (arr : list Entry) (acc : list Q) :
  forEach (pushRecent now) arr acc =
  Some (acc ++ map y (List.filter (within now 1000) arr)).
Proof.
  revert acc. induction arr as [|e arr IH]; intros acc; simpl.
  - now rewrite app_nil_r.
  - unfold pushRecent at 1. destruct (within now 1000 e); simpl.
    + rewrite IH. now rewrite <- app_assoc.
    + apply IH.
Qed.

Lemma history_lookup (kd : gmap nat (list Entry)) point arr :
  kd !! point = Some arr -> history kd point = arr.
Proof. unfold history. now intros ->. Qed.

(** On keys that are there, the outer pooling loop builds [pooled]. *)
Lemma forEach_poolPoint now (kd : gmap nat (list Entry)) (ps : list nat)
  (acc : list Q) :
  Forall (fun point => is_Some (kd !! point)) ps ->
  forEach (poolPoint now kd) ps acc =
  Some (acc ++ flat_map
                 (fun point => map y (List.filter (within now 1000) (history kd point)))
                 ps).
Proof.
  revert acc. induction ps as [|p ps IH]; intros acc Hwf; simpl.
  - now rewrite app_nil_r.
  - inversion Hwf as [|? ? [arr Hp] Hrest]; subst.
    unfold poolPoint at 1. rewrite Hp, forEach_pushRecent.
    rewrite (IH _ Hrest), (history_lookup _ _ _ Hp).
    now rewrite <- app_assoc.
Qed.

(** On keys that are there, the chart loop maps [avgY] over the histories. *)
Lemma mapE_graphPoint now (kd : gmap nat (list Entry)) (ps : list nat) :
  Forall (fun point => is_Some (kd !! point)) ps ->
  mapE (graphPoint now kd) ps =
  Some (map (fun point => avgY now (history kd point)) ps).
Proof.
  induction ps as [|p ps IH]; intros Hwf; simpl; [reflexivity|].
  inversion Hwf as [|? ? [arr Hp] Hrest]; subst.
  unfold graphPoint at 1. rewrite Hp, (IH Hrest), (history_lookup _ _ _ Hp).
  reflexivity.
Qed.

(** [updateGraph] in one equation, for a state whose five keys are there. *)
Lemma updateGraph_wf now (s : State) :
  wf s ->
  updateGraph now s =
  Some (checkAlert now (pooled now (keypointsData s))
          (drawGraph (map (fun point => avgY now (history (keypointsData s) point))
                          tracked) s)).
Proof.
  intros Hwf. unfold updateGraph.
  rewrite (mapE_graphPoint now _ tracked Hwf). simpl drawGraph.
  cbv zeta. simpl keypointsData.
  rewrite (forEach_poolPoint now _ tracked [] Hwf). reflexivity.
Qed.

(** A missing key makes [updateGraph] throw. *)
Lemma updateGraph_missing now (s : State) point :
  In point tracked -> keypointsData s !! point = None -> updateGraph now s = None.
Proof.
  intros Hin Hnone. unfold updateGraph.
  assert (E : mapE (graphPoint now (keypointsData s)) tracked = None).
  { revert Hin. generalize tracked. intros ps.
    induction ps as [|p ps IH]; intros Hin; [destruct Hin|].
    simpl. destruct Hin as [->|Hin].
    - unfold graphPoint at 1. now rewrite Hnone.
    - destruct (graphPoint now (keypointsData s) p); [|reflexivity].
      now rewrite (IH Hin). }
  now rewrite E.
Qed.

(** [checkAlert] case by case. *)
Lemma checkAlert_cases now (pool : list Q) (s : State) :
  (pool <> [] /\ alertEnabled s = true /\ threshold s < mean pool
   /\ 1000 < now - lastBeepTime s /\ checkAlert now pool s = beepNow now s)
  \/ ((pool = [] \/ alertEnabled s = false \/ mean pool <= threshold s
       \/ now - lastBeepTime s <= 1000) /\ checkAlert now pool s = s).
Proof.
  unfold checkAlert.
  destruct pool as [|x pool]; [right; split; [left|]; reflexivity|].
  change (Nat.ltb 0 (length (x :: pool))) with true. cbv iota zeta.
  assert (Emean : fold_left Qplus (x :: pool) 0 / Qlength (x :: pool)
                  == mean (x :: pool)).
  { unfold mean. now rewrite fold_left_Qsum. }
  destruct (alertEnabled s) eqn:Hen; simpl andb;
    [|right; split; [right; left|]; reflexivity].
  destruct (Qltb (threshold s) _) eqn:Hthr.
  - apply Qltb_lt in Hthr. rewrite Emean in Hthr.
    destruct (Qltb 1000 _) eqn:Hgap.
    + apply Qltb_lt in Hgap. left. repeat split; try assumption. discriminate.
    + apply Qltb_ge in Hgap. right. split; [|reflexivity]. now do 3 right.
  - apply Qltb_ge in Hthr. rewrite Emean in Hthr.
    right. split; [|reflexivity]. right; right; left. exact Hthr.
Qed.

(** Case analysis on the [checkAlert] of the goal: either it beeped
    ([Hne], [Hen], [Hthr], [Hgap] say why) or it did nothing ([Hno]). *)
Ltac case_checkAlert :=
  match goal with
  | |- context [checkAlert ?now ?pool ?s1] =>
      let Hne := fresh "Hne" in
      let Hen := fresh "Hen" in
      let Hthr := fresh "Hthr" in
      let Hgap := fresh "Hgap" in
      let Hno := fresh "Hno" in
      destruct (checkAlert_cases now pool s1)
        as [(Hne & Hen & Hthr & Hgap & ->)|[Hno ->]];
      simpl in *
  end.

(** ** updateKeypointsData: what one call does to the histories *)

Lemma tracked_NoDup : List.NoDup tracked.
Proof. unfold tracked. repeat constructor; simpl; intuition lia. Qed.

Lemma ingestPoint_step kps now (kd : gmap nat (list Entry)) point arr :
  kd !! point = Some arr ->
  exists kd1,
    ingestPoint kps now kd point = Some kd1
    /\ kd1 !! point = Some (ingestHistory (truthySlot kps point) now arr)
    /\ forall q, q <> point -> kd1 !! q = kd !! q.
Proof.
  intros Hp. unfold ingestPoint, ingestHistory.
  destruct (truthySlot kps point) as [k|].
  - rewrite Hp. eexists. split; [reflexivity|]. split.
    + apply lookup_insert_eq.
    + intros q Hq. apply lookup_insert_ne. congruence.
  - exists kd. auto.
Qed.

Lemma forEach_ingestPoint kps now (ps : list nat) (kd : gmap nat (list Entry)) :
  List.NoDup ps ->
  Forall (fun point => is_Some (kd !! point)) ps ->
  exists kd',
    forEach (ingestPoint kps now) ps kd = Some kd'
    /\ (forall p, In p ps ->
          kd' !! p = Some (ingestHistory (truthySlot kps p) now (history kd p)))
    /\ (forall p, ~ In p ps -> kd' !! p = kd !! p).
Proof.
  revert kd. induction ps as [|p0 ps IH]; intros kd Hnd Hwf.
  - exists kd. simpl. intuition.
  - inversion Hnd as [|? ? Hnotin Hnd']; subst.
    inversion Hwf as [|? ? [arr Hp0] Hrest]; subst.
    destruct (ingestPoint_step kps now kd p0 arr Hp0) as (kd1 & Hstep & Hat & Hother).
    assert (Hwf1 : Forall (fun point => is_Some (kd1 !! point)) ps).
    { rewrite Forall_forall in Hrest |- *. intros q Hq.
      rewrite Hother; [apply Hrest; exact Hq|]. intros ->. apply Hnotin.
      apply list_elem_of_In. exact Hq. }
    destruct (IH kd1 Hnd' Hwf1) as (kd' & Hrun & Hin & Hout).
    exists kd'. simpl. rewrite Hstep. split; [exact Hrun|]. split.
    + intros p [<-|Hp].
      * rewrite (Hout p0 Hnotin), Hat. now rewrite (history_lookup _ _ _ Hp0).
      * rewrite (Hin p Hp). unfold history. rewrite Hother; [reflexivity|].
        intros ->. exact (Hnotin Hp).
    + intros p Hp. rewrite Hout by (intros H; apply Hp; right; exact H).
      apply Hother. intros ->. apply Hp. left; reflexivity.
Qed.

Lemma setKeypointsData_same (s : State) : setKeypointsData (keypointsData s) s = s.
Proof. now destruct s. Qed.

(** The state after the first half of [updateKeypointsData]. *)
Lemma ingest_wf poses now (s : State) :
  wf s ->
  exists s',
    ingest poses now s = Some s'
    /\ s' = setKeypointsData (keypointsData s') s
    /\ (forall p, In p tracked ->
          keypointsData s' !! p =
          Some (ingestHistory (present poses p) now (history (keypointsData s) p)))
    /\ (forall p, ~ In p tracked -> keypointsData s' !! p = keypointsData s !! p).
Proof.
  intros Hwf.
  assert (Hsame : forall p, In p tracked ->
            keypointsData s !! p = Some (history (keypointsData s) p)).
  { intros p Hp. unfold wf, wf_data in Hwf. rewrite Forall_forall in Hwf.
    destruct (Hwf p ltac:(apply list_elem_of_In; exact Hp)) as [arr Harr].
    now rewrite (history_lookup _ _ _ Harr). }
  unfold ingest, present.
  destruct poses as [[|pose0 rest]|];
    [exists s; rewrite setKeypointsData_same; simpl; now auto | |
     exists s; rewrite setKeypointsData_same; simpl; now auto].
  destruct (forEach_ingestPoint (keypoints pose0) now tracked (keypointsData s)
              tracked_NoDup Hwf) as (kd' & Hrun & Hin & Hout).
  rewrite Hrun. exists (setKeypointsData kd' s). simpl. auto.
Qed.

Lemma ingest_preserves_wf poses now (s s' : State) :
  wf s -> ingest poses now s = Some s' -> wf s'.
Proof.
  intros Hwf Hs'. destruct (ingest_wf poses now s Hwf) as (s1 & Hrun & _ & Hin & _).
  assert (s1 = s') by congruence. subst s1.
  unfold wf, wf_data. rewrite Forall_forall. intros p Hp.
  rewrite (Hin p) by (apply list_elem_of_In; exact Hp). eauto.
Qed.





(** ** updateGraph: frame and totality *)

Lemma checkAlert_frame now pool (s : State) :
  keypointsData (checkAlert now pool s) = keypointsData s
  /\ threshold (checkAlert now pool s) = threshold s
  /\ alertEnabled (checkAlert now pool s) = alertEnabled s
  /\ chart_data (checkAlert now pool s) = chart_data s.
Proof.
  destruct (checkAlert_cases now pool s) as [(_ & _ & _ & _ & ->)|[_ ->]];
    simpl; auto.
Qed.

Lemma updateGraph_frame now (s s' : State) :
  updateGraph now s = Some s' ->
  keypointsData s' = keypointsData s
  /\ threshold s' = threshold s
  /\ alertEnabled s' = alertEnabled s.
Proof.
  unfold updateGraph.
  destruct (mapE _ tracked) as [graphData|]; [|discriminate].
  cbv zeta. destruct (forEach _ tracked []) as [pool|]; [|discriminate].
  intros [= <-].
  destruct (checkAlert_frame now pool (drawGraph graphData s)) as (-> & -> & -> & _).
  simpl. auto.
Qed.

Lemma updateKeypointsData_wf poses now gnow (s : State) :
  wf s ->
  exists s1 s',
    ingest poses now s = Some s1
    /\ updateGraph gnow s1 = Some s'
    /\ updateKeypointsData poses now gnow s = Some s'
    /\ keypointsData s' = keypointsData s1
    /\ wf s1 /\ wf s'.
Proof.
  intros Hwf.
  destruct (ingest_wf poses now s Hwf) as (s1 & Hing & _).
  pose proof (ingest_preserves_wf _ _ _ _ Hwf Hing) as Hwf1.
  pose proof (updateGraph_wf gnow s1 Hwf1) as Hug.
  destruct (updateGraph_frame _ _ _ Hug) as (Hkd & _).
  eexists s1, _. unfold updateKeypointsData. rewrite Hing.
  split; [reflexivity|]. split; [exact Hug|]. split; [exact Hug|].
  split; [exact Hkd|]. split; [exact Hwf1|].
  unfold wf. rewrite Hkd. exact Hwf1.
Qed.

Lemma init_wf : wf init.
Proof.
  solve_wf.
Qed.

Lemma step_wf (s : State) (e : Event) :
  wf s -> exists s', step s e = Some s' /\ wf s'.
Proof.
  intros Hwf. destruct e as [poses now gnow|v|]; simpl.
  - destruct (updateKeypointsData_wf poses now gnow s Hwf)
      as (s1 & s' & _ & _ & -> & _ & _ & Hwf').
    eauto.
  - eauto.
  - eauto.
Qed.

(** From a well-formed state no event ever throws. *)
Lemma run_wf (events : list Event) (s : State) :
  wf s -> exists s', run events s = Some s' /\ wf s'.
Proof.
  revert s. induction events as [|e events IH]; intros s Hwf.
  - exists s. split; [reflexivity|exact Hwf].
  - destruct (step_wf s e Hwf) as (s1 & Hstep & Hwf1).
    destruct (IH s1 Hwf1) as (s' & Hrun & Hwf').
    exists s'. unfold run in *. simpl. rewrite Hstep. auto.
Qed.

(** ** Pruning (C1) *)

Lemma ingestHistory_within k now (arr : list Entry) (e : Entry) :
  In e (ingestHistory (Some k) now arr) ->
  now - time e < DATA_RETENTION_WINDOW.
Proof.
  unfold ingestHistory. intros He.
  apply filter_In in He. destruct He as [_ He]. now apply within_lt.
Qed.

Lemma ingestHistory_append k now (arr : list Entry) :
  ingestHistory (Some k) now arr =
  List.filter (within now DATA_RETENTION_WINDOW) arr ++ [observation now k].
Proof.
  unfold ingestHistory. rewrite List.filter_app. simpl.
  now rewrite within_self.
Qed.

(** C1, as stated, fails: a frame in which no pose is detected, or in which
    a tracked keypoint is absent from the first pose, prunes nothing.  After
    [stale_run] and after [occluded_run] the history of keypoint 0 still
    holds the entry taken at time 0, while the clock reads 6000. *)
Lemma C1_counterexample :
  (exists s', run stale_run init = Some s'
     /\ keypointsData s' !! 0%nat = Some [{| time := 0; y := 100 |}]
     /\ ~ all_within 6000 (keypointsData s'))
  /\ (exists s', run occluded_run init = Some s'
     /\ keypointsData s' !! 0%nat = Some [{| time := 0; y := 100 |}]
     /\ ~ all_within 6000 (keypointsData s')).
Proof.
  split.
  - eexists. split; [vm_compute; reflexivity|]. split; [reflexivity|].
    intros Hall.
    specialize (Hall 0%nat [{| time := 0; y := 100 |}] {| time := 0; y := 100 |}).
    simpl in Hall.
    assert (H : 6000 - 0 < DATA_RETENTION_WINDOW).
    { apply Hall; [left; reflexivity | reflexivity | left; reflexivity]. }
    vm_compute in H. discriminate H.
  - eexists. split; [vm_compute; reflexivity|]. split; [reflexivity|].
    intros Hall.
    specialize (Hall 0%nat [{| time := 0; y := 100 |}] {| time := 0; y := 100 |}).
    simpl in Hall.
    assert (H : 6000 - 0 < DATA_RETENTION_WINDOW).
    { apply Hall; [left; reflexivity | reflexivity | left; reflexivity]. }
    vm_compute in H. discriminate H.
Qed.

(** C1, amended: a call of [updateKeypointsData] on a state whose five keys
    are there returns; after it, the history of every tracked keypoint that
    is present in the first pose holds only entries with
    [currentTime - time < 5000]; the history of a tracked keypoint that is
    absent (also when the pose list is empty or null) is left as it was. *)
Theorem C1_pruned_where_pushed poses now gnow (s : State) :
  wf s ->
  exists s',
    updateKeypointsData poses now gnow s = Some s'
    /\ forall point, In point tracked ->
         match present poses point with
         | Some _ =>
             exists arr, keypointsData s' !! point = Some arr
               /\ forall e, In e arr -> now - time e < DATA_RETENTION_WINDOW
         | None => keypointsData s' !! point = keypointsData s !! point
         end.
Proof.
  intros Hwf.
  destruct (updateKeypointsData_wf poses now gnow s Hwf)
    as (s1 & s' & Hing & _ & Hrun & Hkd & _ & _).
  exists s'. split; [exact Hrun|]. intros point Hpoint. rewrite Hkd.
  destruct (ingest_wf poses now s Hwf) as (s1' & Hing' & _ & Hin & _).
  assert (s1' = s1) by congruence. subst s1'.
  rewrite (Hin point Hpoint).
  destruct (present poses point) as [k|].
  - eexists. split; [reflexivity|]. intros e. apply ingestHistory_within.
  - simpl. unfold wf, wf_data in Hwf. rewrite Forall_forall in Hwf.
    destruct (Hwf point ltac:(apply list_elem_of_In; exact Hpoint)) as [arr Harr].
    now rewrite (history_lookup _ _ _ Harr).
Qed.

Lemma C1_pruned_where_pushed_witness :
  wf (slouching false)
  /\ exists s',
       updateKeypointsData (Some [nose_only 100]) 8000 8000 (slouching false)
         = Some s'
       /\ (exists arr, keypointsData s' !! 0%nat = Some arr
             /\ forall e, In e arr -> 8000 - time e < DATA_RETENTION_WINDOW)
       /\ keypointsData s' !! 1%nat = keypointsData (slouching false) !! 1%nat.
Proof.
  assert (Hwf : wf (slouching false)) by solve_wf.
  split; [exact Hwf|].
  destruct (C1_pruned_where_pushed (Some [nose_only 100]) 8000 8000
              (slouching false) Hwf) as (s' & Hrun & Hhist).
  exists s'. split; [exact Hrun|]. split.
  - apply (Hhist 0%nat). simpl. auto.
  - apply (Hhist 1%nat). simpl. auto.
Defined.

(** ** What a pose list contributes (C8) *)



(** ** updateGraph: what it leaves alone (C9, C6, C7, C10) *)

(** C9: a call of [updateGraph] on a state whose five keys are there returns
    a state with the same histories, the same [threshold] and the same
    [alertEnabled]; it is the old state with the chart dataset replaced, and,
    when the alert fired, with [lastBeepTime] set and the beep logged. *)
Theorem C9_updateGraph_frame now (s : State) :
  wf s ->
  exists s' graphData,
    updateGraph now s = Some s'
    /\ keypointsData s' = keypointsData s
    /\ threshold s' = threshold s
    /\ alertEnabled s' = alertEnabled s
    /\ (s' = drawGraph graphData s \/ s' = beepNow now (drawGraph graphData s)).
Proof.
  intros Hwf. pose proof (updateGraph_wf now s Hwf) as Hug.
  destruct (updateGraph_frame _ _ _ Hug) as (Hkd & Hthr & Hen).
  eexists _, _. split; [exact Hug|].
  split; [exact Hkd|]. split; [exact Hthr|]. split; [exact Hen|].
  case_checkAlert; auto.
Qed.

Lemma C9_updateGraph_frame_witness :
  wf (slouching true)
  /\ exists s' graphData,
       updateGraph 2500 (slouching true) = Some s'
       /\ keypointsData s' = keypointsData (slouching true)
       /\ threshold s' = threshold (slouching true)
       /\ alertEnabled s' = alertEnabled (slouching true)
       /\ (s' = drawGraph graphData (slouching true)
           \/ s' = beepNow 2500 (drawGraph graphData (slouching true))).
Proof.
  assert (Hwf : wf (slouching true)) by solve_wf.
  split; [exact Hwf|].
  exact (C9_updateGraph_frame 2500 (slouching true) Hwf).
Defined.

(** C6: with [alertEnabled] false, a call of [updateGraph] logs no beep and
    leaves [lastBeepTime] alone, whatever the histories and the threshold. *)
Theorem C6_disabled_never_alerts now (s : State) :
  wf s ->
  alertEnabled s = false ->
  exists s', updateGraph now s = Some s' /\ no_alert s s'.
Proof.
  intros Hwf Hoff. rewrite (updateGraph_wf now s Hwf).
  eexists. split; [reflexivity|].
  case_checkAlert.
  - congruence.
  - split; reflexivity.
Qed.

Lemma C6_disabled_never_alerts_witness :
  wf (slouching false)
  /\ alertEnabled (slouching false) = false
  /\ threshold (slouching false) < mean (pooled 2500 (keypointsData (slouching false)))
  /\ exists s', updateGraph 2500 (slouching false) = Some s'
                /\ no_alert (slouching false) s'.
Proof.
  assert (Hwf : wf (slouching false)) by solve_wf.
  split; [exact Hwf|]. split; [reflexivity|]. split; [reflexivity|].
  exact (C6_disabled_never_alerts 2500 (slouching false) Hwf eq_refl).
Defined.

(** C7: when no observation of the last second is pooled, [updateGraph]
    returns (nothing is thrown), and all it does is replace the chart
    dataset: no beep, [lastBeepTime] as before.  When the five histories are
    empty, the dataset is [[0, 0, 0, 0, 0]]. *)
Theorem C7_empty_pool_no_alert now (s : State) :
  wf s ->
  pooled now (keypointsData s) = [] ->
  exists s' graphData,
    updateGraph now s = Some s'
    /\ s' = drawGraph graphData s
    /\ chart_data s' = graphData
    /\ no_alert s s'
    /\ ((forall point, In point tracked -> history (keypointsData s) point = []) ->
        graphData = [0; 0; 0; 0; 0]).
Proof.
  intros Hwf Hpool. rewrite (updateGraph_wf now s Hwf), Hpool.
  eexists _, _. split; [reflexivity|].
  change (checkAlert now [] ?s1) with s1.
  split; [reflexivity|]. split; [reflexivity|]. split; [split; reflexivity|].
  intros Hempty. unfold tracked in *. simpl.
  rewrite !Hempty by (simpl; auto 10). reflexivity.
Qed.

Lemma C7_empty_pool_no_alert_witness :
  wf init
  /\ pooled 2000 (keypointsData init) = []
  /\ exists s' graphData,
       updateGraph 2000 init = Some s'
       /\ s' = drawGraph graphData init
       /\ chart_data s' = graphData
       /\ no_alert init s'
       /\ graphData = [0; 0; 0; 0; 0].
Proof.
  assert (Hwf : wf init) by solve_wf.
  split; [exact Hwf|]. split; [reflexivity|].
  destruct (C7_empty_pool_no_alert 2000 init Hwf eq_refl)
    as (s' & graphData & Hrun & Hs' & Hchart & Hno & Hzero).
  exists s', graphData. repeat (split; [assumption|]).
  apply Hzero. intros point Hpoint. each_tracked Hpoint.
Defined.

(** C10: [updateGraph] is a function of the histories, [threshold],
    [alertEnabled], [lastBeepTime] and the clock reading: from two states
    equal on these, both calls throw or both return, with the same chart
    dataset, the same [lastBeepTime], and the same beeps put on the log. *)
Theorem C10_updateGraph_deterministic now (s1 s2 : State) :
  keypointsData s1 = keypointsData s2 ->
  threshold s1 = threshold s2 ->
  alertEnabled s1 = alertEnabled s2 ->
  lastBeepTime s1 = lastBeepTime s2 ->
  match updateGraph now s1, updateGraph now s2 with
  | Some s1', Some s2' =>
      chart_data s1' = chart_data s2'
      /\ lastBeepTime s1' = lastBeepTime s2'
      /\ exists new, beeps s1' = new ++ beeps s1 /\ beeps s2' = new ++ beeps s2
  | None, None => True
  | _, _ => False
  end.
Proof.
  intros Hkd Hthr Hen Hlast. unfold updateGraph. rewrite <- Hkd.
  destruct (mapE _ tracked) as [graphData|]; [|exact I].
  cbv zeta. simpl keypointsData. rewrite <- Hkd.
  destruct (forEach _ tracked []) as [pool|]; [|exact I].
  unfold checkAlert.
  cbn [drawGraph threshold alertEnabled lastBeepTime].
  rewrite <- Hthr, <- Hen, <- Hlast.
  destruct (Nat.ltb 0 (length pool));
    [|cbn; split; [|split]; [reflexivity|exact Hlast|now exists []]].
  destruct (alertEnabled s1 && _);
    [|cbn; split; [|split]; [reflexivity|exact Hlast|now exists []]].
  destruct (Qltb 1000 _);
    [|cbn; split; [|split]; [reflexivity|exact Hlast|now exists []]].
  cbn. split; [|split]; [reflexivity..|]. now eexists [_].
Qed.

Lemma C10_updateGraph_deterministic_witness :
  let s2 := drawGraph [1; 2; 3] (beepNow 0 (slouching true)) in
  match updateGraph 2500 (slouching true), updateGraph 2500 s2 with
  | Some s1', Some s2' =>
      chart_data s1' = chart_data s2'
      /\ lastBeepTime s1' = lastBeepTime s2'
      /\ exists new, beeps s1' = new ++ beeps (slouching true)
                     /\ beeps s2' = new ++ beeps s2
  | None, None => True
  | _, _ => False
  end.
Proof.
  apply (C10_updateGraph_deterministic 2500 (slouching true)
           (drawGraph [1; 2; 3] (beepNow 0 (slouching true))));
    reflexivity.
Defined.

(** ** The alert rule (C2, C3) *)

(** C2, as stated, fails where no alert has fired yet: [lastBeepTime] starts
    at 0 and there is no value for "never", so in the first second of the
    clock nothing fires.  In [early_slouch], reached from [init] by a click
    on the button and the first half of [updateKeypointsData] at clock 500,
    the alert is on, the pooled set is [[400]], its mean is above the
    threshold 300 and no beep was ever made; [updateGraph] at 500 makes none. *)
Lemma C2_counterexample :
  ingest (Some [nose_only 400]) 500 (onToggleClick init) = Some early_slouch
  /\ alertEnabled early_slouch = true
  /\ pooled 500 (keypointsData early_slouch) = [400]
  /\ threshold early_slouch < mean (pooled 500 (keypointsData early_slouch))
  /\ beeps early_slouch = []
  /\ exists s', updateGraph 500 early_slouch = Some s'
                /\ ~ alert_fires 500 early_slouch s'.
Proof.
  split; [reflexivity|]. split; [reflexivity|]. split; [reflexivity|].
  split; [reflexivity|]. split; [reflexivity|].
  eexists. split; [vm_compute; reflexivity|].
  intros [Hlog _]. discriminate Hlog.
Qed.

(** C3, as stated, fails: in the run it describes the pooled mean is 400,
    above 300, at both calls of [updateGraph] (clock 0 and clock 500), and
    the alert fires at neither: the log of beeps is empty at the end. *)
Lemma C3_counterexample :
  exists s1 s2,
    run (firstn 2 (two_frames 0)) init = Some s1
    /\ run (two_frames 0) init = Some s2
    /\ alertEnabled s1 = true /\ threshold s1 == 300
    /\ mean (pooled 0 (keypointsData s1)) == 400
    /\ mean (pooled 500 (keypointsData s2)) == 400
    /\ beeps s1 = [] /\ beeps s2 = [].
Proof.
  eexists _, _.
  split; [vm_compute; reflexivity|]. split; [vm_compute; reflexivity|].
  repeat split.
Qed.

(** C3, amended: with only keypoint 0 pushed, at height 400 at 0 ms and at
    500 ms, threshold 300 and the alert on, the pooled mean is 400 > 300 at
    both calls of [updateGraph] and no alert fires, neither clock reading
    being more than 1000 ms after the initial [lastBeepTime] 0.  With the
    same two frames at 2000 ms and 2500 ms the alert fires exactly once, at
    the first call, and not again 500 ms later. *)
Theorem C3_two_frames_scenario :
  (exists s1 s2,
     run (firstn 2 (two_frames 0)) init = Some s1
     /\ run (two_frames 0) init = Some s2
     /\ threshold s2 < mean (pooled 0 (keypointsData s1))
     /\ mean (pooled 0 (keypointsData s1)) == 400
     /\ threshold s2 < mean (pooled 500 (keypointsData s2))
     /\ mean (pooled 500 (keypointsData s2)) == 400
     /\ beeps s1 = [] /\ beeps s2 = [])
  /\ (exists s1 s2,
     run (firstn 2 (two_frames 2000)) init = Some s1
     /\ run (two_frames 2000) init = Some s2
     /\ mean (pooled 2000 (keypointsData s1)) == 400
     /\ mean (pooled 2500 (keypointsData s2)) == 400
     /\ beeps s1 = [{| beep_at := 2000; beep_vol := 0.2;
                       beep_freq := 440; beep_duration := 300 |}]
     /\ beeps s2 = beeps s1).
Proof.
  split.
  - eexists _, _.
    split; [vm_compute; reflexivity|]. split; [vm_compute; reflexivity|].
    repeat split.
  - eexists _, _.
    split; [vm_compute; reflexivity|]. split; [vm_compute; reflexivity|].
    repeat split.
Qed.

(** ** Spacing of the beeps (C5) *)

Lemma StronglySorted_lookup {A} (R : A -> A -> Prop) (l : list A) :
  StronglySorted R l ->
  forall (i j : nat) (a b : A),
    (i < j)%nat -> l !! i = Some a -> l !! j = Some b -> R a b.
Proof.
  induction 1 as [|x l Hsorted IH Hall]; intros i j a b Hij Hi Hj.
  - discriminate Hi.
  - destruct j as [|j]; [lia|]. simpl in Hj.
    destruct i as [|i].
    + injection Hi as <-. rewrite Forall_forall in Hall.
      apply Hall. apply list_elem_of_lookup. eauto.
    + simpl in Hi. apply (IH i j); [lia|assumption..].
Qed.

Lemma ingest_alert_state poses now (s s1 : State) :
  ingest poses now s = Some s1 ->
  beeps s1 = beeps s /\ lastBeepTime s1 = lastBeepTime s.
Proof.
  unfold ingest. destruct poses as [[|pose0 rest]|]; try (intros [= <-]; now split).
  destruct (forEach _ tracked _) as [kd|]; [|discriminate].
  intros [= <-]. now split.
Qed.

Lemma updateGraph_alert_state now (s s' : State) :
  updateGraph now s = Some s' ->
  (1000 < now - lastBeepTime s
   /\ lastBeepTime s' = now
   /\ exists b, beep_at b = now /\ beeps s' = b :: beeps s)
  \/ (beeps s' = beeps s /\ lastBeepTime s' = lastBeepTime s).
Proof.
  unfold updateGraph.
  destruct (mapE _ tracked) as [graphData|]; [|discriminate].
  cbv zeta. destruct (forEach _ tracked []) as [pool|]; [|discriminate].
  intros [= <-].
  destruct (checkAlert_cases now pool (drawGraph graphData s))
    as [(_ & _ & _ & Hgap & ->)|[_ ->]]; simpl in *.
  - left. split; [exact Hgap|]. split; [reflexivity|].
    eexists. split; [|reflexivity]. reflexivity.
  - right. split; reflexivity.
Qed.

(** A beep made now is long after every beep of a log that is in order. *)
Lemma long_after_all now (s : State) (b : Beep) :
  log_ok s ->
  beep_at b = now ->
  1000 < now - lastBeepTime s ->
  Forall (long_after b) (beeps s).
Proof.
  intros [Hsorted Hhead] Hb Hgap.
  destruct (beeps s) as [|b0 bs]; [constructor|].
  apply StronglySorted_inv in Hsorted. destruct Hsorted as [_ Hall].
  assert (H0 : long_after b b0).
  { unfold long_after. now rewrite Hb, Hhead. }
  constructor; [exact H0|].
  rewrite Forall_forall in Hall |- *. intros b' Hb'.
  specialize (Hall b' Hb'). unfold long_after in *.
  assert (E : beep_at b - beep_at b'
              == (beep_at b - beep_at b0) + (beep_at b0 - beep_at b')) by ring.
  rewrite E.
  apply Qlt_trans with (y := beep_at b - beep_at b0); [exact H0|].
  rewrite <- (Qplus_0_r (beep_at b - beep_at b0)) at 1.
  apply Qplus_lt_r. apply Qlt_trans with (y := 1000); [reflexivity|exact Hall].
Qed.

Lemma step_log_ok (s s' : State) (e : Event) :
  log_ok s -> step s e = Some s' -> log_ok s'.
Proof.
  intros Hok. destruct e as [poses now gnow|v|]; simpl.
  - unfold updateKeypointsData.
    destruct (ingest poses now s) as [s1|] eqn:Hing; [|discriminate].
    destruct (ingest_alert_state _ _ _ _ Hing) as [Hb1 Hl1].
    assert (Hok1 : log_ok s1).
    { unfold log_ok. rewrite Hb1, Hl1. exact Hok. }
    intros Hug.
    destruct (updateGraph_alert_state _ _ _ Hug)
      as [(Hgap & Hlast & b & Hb & Hlog)|[Hlog Hlast]].
    + unfold log_ok. rewrite Hlog, Hlast. split; [|exact Hb].
      constructor; [exact (proj1 Hok1)|].
      exact (long_after_all gnow s1 b Hok1 Hb Hgap).
    + unfold log_ok. rewrite Hlog, Hlast. exact Hok1.
  - intros [= <-]. exact Hok.
  - intros [= <-]. exact Hok.
Qed.

Lemma run_log_ok (events : list Event) (s s' : State) :
  log_ok s -> run events s = Some s' -> log_ok s'.
Proof.
  revert s. induction events as [|e events IH]; intros s Hok.
  - intros [= <-]. exact Hok.
  - unfold run. simpl. destruct (step s e) as [s1|] eqn:Hstep; [|discriminate].
    apply IH. exact (step_log_ok s s1 e Hok Hstep).
Qed.

Lemma init_log_ok : log_ok init.
Proof. split; [constructor|exact I]. Qed.

(** C5: whatever frames, slider moves and clicks come, from start-up the
    run goes through, and any two beeps on its log are more than 1000 ms
    apart (the log is latest first): no two alerts are less than 1000 ms
    apart. *)
Theorem C5_beeps_spaced (events : list Event) :
  exists s,
    run events init = Some s
    /\ forall (i j : nat) (later earlier : Beep),
         (i < j)%nat ->
         beeps s !! i = Some later ->
         beeps s !! j = Some earlier ->
         1000 < beep_at later - beep_at earlier
         /\ ~ beep_at later - beep_at earlier < 1000.
Proof.
  destruct (run_wf events init init_wf) as (s & Hrun & _).
  exists s. split; [exact Hrun|].
  intros i j later earlier Hij Hi Hj.
  destruct (run_log_ok events init s init_log_ok Hrun) as [Hsorted _].
  pose proof (StronglySorted_lookup _ _ Hsorted i j later earlier Hij Hi Hj) as Hgap.
  unfold long_after in Hgap. split; [exact Hgap|].
  intros Hlt. exact (Qlt_irrefl _ (Qlt_trans _ _ _ Hgap Hlt)).
Qed.

Lemma C5_beeps_spaced_witness :
  exists s,
    run three_frames init = Some s
    /\ length (beeps s) = 3%nat
    /\ forall later earlier,
         beeps s !! 0%nat = Some later ->
         beeps s !! 2%nat = Some earlier ->
         1000 < beep_at later - beep_at earlier.
Proof.
  destruct (C5_beeps_spaced three_frames) as (s & Hrun & Hgap).
  exists s. split; [exact Hrun|]. split.
  - vm_compute in Hrun. injection Hrun as <-. reflexivity.
  - intros later earlier H0 H2.
    exact (proj1 (Hgap 0%nat 2%nat later earlier ltac:(lia) H0 H2)).
Defined.

(** ** Entries out of the window do not count *)

Lemma filter_filter_implied {A} (f g : A -> bool) (l : list A) :
  (forall x, f x = true -> g x = true) ->
  List.filter f (List.filter g l) = List.filter f l.
Proof.
  intros Himp. induction l as [|x l IH]; simpl; [reflexivity|].
  destruct (g x) eqn:Hg; simpl.
  - now rewrite IH.
  - destruct (f x) eqn:Hf; [|exact IH].
    apply Himp in Hf. congruence.
Qed.

Lemma within_1000_5000 now (e : Entry) :
  within now 1000 e = true -> within now DATA_RETENTION_WINDOW e = true.
Proof.
  rewrite !within_lt. intros H.
  apply Qlt_trans with (y := 1000); [exact H|reflexivity].
Qed.

Lemma history_pruned now (kd : gmap nat (list Entry)) point :
  history (List.filter (within now DATA_RETENTION_WINDOW) <$> kd) point =
  List.filter (within now DATA_RETENTION_WINDOW) (history kd point).
Proof.
  unfold history. rewrite lookup_fmap. now destruct (kd !! point).
Qed.

Lemma pruneAll_wf now (s : State) : wf s -> wf (pruneAll now s).
Proof.
  unfold wf, wf_data, pruneAll. simpl. rewrite !Forall_forall.
  intros Hwf p Hp. rewrite lookup_fmap.
  destruct (Hwf p Hp) as [arr ->]. simpl. eauto.
Qed.

Lemma avgY_pruned now (arr : list Entry) :
  avgY now (List.filter (within now DATA_RETENTION_WINDOW) arr) = avgY now arr.
Proof.
  unfold avgY. cbv zeta.
  now rewrite (filter_filter_implied _ _ arr (fun x H => H)).
Qed.

Lemma pooled_pruned now (kd : gmap nat (list Entry)) :
  pooled now (List.filter (within now DATA_RETENTION_WINDOW) <$> kd) = pooled now kd.
Proof.
  unfold pooled, tracked. simpl. rewrite !history_pruned.
  now rewrite !(filter_filter_implied _ _ _ (within_1000_5000 now)).
Qed.

Lemma checkAlert_setKeypointsData now pool kd (s : State) :
  checkAlert now pool (setKeypointsData kd s) =
  setKeypointsData kd (checkAlert now pool s).
Proof.
  unfold checkAlert. simpl.
  destruct (Nat.ltb 0 (length pool)); [|reflexivity].
  destruct (alertEnabled s && _); [|reflexivity].
  destruct (Qltb 1000 _); reflexivity.
Qed.

(** Entries that have left the retention window do not count: [updateGraph]
    on a state and on the same state with every history pruned at the clock
    reading make the same chart dataset and the same alert decision; the two
    results differ by that pruning only. *)
Theorem updateGraph_ignores_stale now (s : State) :
  wf s ->
  exists s',
    updateGraph now s = Some s'
    /\ updateGraph now (pruneAll now s) = Some (pruneAll now s')
    /\ chart_data (pruneAll now s') = chart_data s'
    /\ beeps (pruneAll now s') = beeps s'
    /\ lastBeepTime (pruneAll now s') = lastBeepTime s'.
Proof.
  intros Hwf.
  rewrite (updateGraph_wf now s Hwf).
  rewrite (updateGraph_wf now _ (pruneAll_wf now s Hwf)).
  eexists. split; [reflexivity|]. split; [|now split].
  f_equal. unfold pruneAll at 1 2 3. simpl keypointsData.
  rewrite pooled_pruned.
  assert (Emap : map (fun point =>
                   avgY now (history (List.filter (within now DATA_RETENTION_WINDOW)
                                        <$> keypointsData s) point)) tracked
                 = map (fun point => avgY now (history (keypointsData s) point)) tracked).
  { apply map_ext. intros p. now rewrite history_pruned, avgY_pruned. }
  rewrite Emap.
  match goal with
  | |- checkAlert now ?pool (drawGraph ?g (setKeypointsData ?kd s)) = _ =>
      change (drawGraph g (setKeypointsData kd s))
        with (setKeypointsData kd (drawGraph g s));
      rewrite (checkAlert_setKeypointsData now pool kd (drawGraph g s))
  end.
  unfold pruneAll.
  destruct (checkAlert_frame now (pooled now (keypointsData s))
              (drawGraph (map (fun point => avgY now (history (keypointsData s) point))
                              tracked) s)) as (Hkd & _).
  rewrite Hkd. simpl keypointsData.
  generalize (checkAlert now (pooled now (keypointsData s))
                (drawGraph (map (fun point => avgY now (history (keypointsData s) point))
                                tracked) s)).
  intros s0. reflexivity.
Qed.

Lemma updateGraph_ignores_stale_witness :
  wf (slouching true)
  /\ exists s',
       updateGraph 8000 (slouching true) = Some s'
       /\ updateGraph 8000 (pruneAll 8000 (slouching true))
          = Some (pruneAll 8000 s')
       /\ keypointsData (pruneAll 8000 (slouching true)) !! 0%nat = Some []
       /\ chart_data s' = [0; 0; 0; 0; 0].
Proof.
  assert (Hwf : wf (slouching true)) by solve_wf.
  split; [exact Hwf|].
  destruct (updateGraph_ignores_stale 8000 (slouching true) Hwf)
    as (s' & Hrun & Hpruned & _).
  exists s'. split; [exact Hrun|]. split; [exact Hpruned|].
  split; [reflexivity|].
  vm_compute in Hrun. injection Hrun as <-. reflexivity.
Defined.

Lemma filter_none {A} (f : A -> bool) (l : list A) :
  (forall x, In x l -> f x = false) -> List.filter f l = [].
Proof.
  induction l as [|x l IH]; intros Hnone; simpl; [reflexivity|].
  rewrite (Hnone x) by (left; reflexivity).
  apply IH. intros x' Hx'. apply Hnone. right; exact Hx'.
Qed.

Lemma within_false now w (e : Entry) : within now w e = false <-> w <= now - time e.
Proof. apply Qltb_ge. Qed.

Lemma In_pooled now (kd : gmap nat (list Entry)) (v : Q) :
  In v (pooled now kd) <->
  exists point e,
    In point tracked /\ In e (history kd point)
    /\ now - time e < 1000 /\ y e = v.
Proof.
  unfold pooled. rewrite in_flat_map. split.
  - intros (point & Hpoint & Hv). apply in_map_iff in Hv.
    destruct Hv as (e & Hy & He). apply filter_In in He. destruct He as [He Hrecent].
    exists point, e. rewrite <- within_lt. auto.
  - intros (point & e & Hpoint & He & Hrecent & Hy).
    exists point. split; [exact Hpoint|]. apply in_map_iff. exists e.
    split; [exact Hy|]. apply filter_In. rewrite within_lt. auto.
Qed.

(** When every entry of the five histories has left the retention window
    (detection stopped at least 5000 ms ago), [updateGraph] charts
    [[0, 0, 0, 0, 0]] and makes no beep. *)
Theorem updateGraph_aged_out now (s : State) :
  wf s ->
  (forall point e,
     In point tracked -> In e (history (keypointsData s) point) ->
     DATA_RETENTION_WINDOW <= now - time e) ->
  exists s',
    updateGraph now s = Some s'
    /\ chart_data s' = [0; 0; 0; 0; 0]
    /\ no_alert s s'.
Proof.
  intros Hwf Hold. rewrite (updateGraph_wf now s Hwf).
  assert (Hpool : pooled now (keypointsData s) = []).
  { destruct (pooled now (keypointsData s)) as [|v pool] eqn:E; [reflexivity|].
    assert (Hv : In v (pooled now (keypointsData s))) by (rewrite E; left; reflexivity).
    apply In_pooled in Hv. destruct Hv as (point & e & Hpoint & He & Hrecent & _).
    specialize (Hold point e Hpoint He). exfalso.
    apply (Qlt_not_le _ _ Hrecent).
    apply Qle_trans with (y := DATA_RETENTION_WINDOW); [discriminate|exact Hold]. }
  rewrite Hpool. eexists. split; [reflexivity|].
  change (checkAlert now [] ?s1) with s1. simpl chart_data.
  split; [|split; reflexivity].
  assert (Hzero : forall point, In point tracked ->
            avgY now (history (keypointsData s) point) = 0).
  { intros point Hpoint. unfold avgY. cbv zeta.
    rewrite filter_none; [reflexivity|].
    intros e He. apply within_false. exact (Hold point e Hpoint He). }
  unfold tracked in *. simpl.
  rewrite !Hzero by (simpl; auto 10). reflexivity.
Qed.

Lemma updateGraph_aged_out_witness :
  wf (slouching true)
  /\ exists s',
       updateGraph 7000 (slouching true) = Some s'
       /\ chart_data s' = [0; 0; 0; 0; 0]
       /\ no_alert (slouching true) s'.
Proof.
  assert (Hwf : wf (slouching true)) by solve_wf.
  split; [exact Hwf|].
  apply (updateGraph_aged_out 7000 (slouching true) Hwf).
  intros point e Hpoint He. unfold tracked in Hpoint.
  repeat (destruct Hpoint as [<-|Hpoint];
          [vm_compute in He; repeat (destruct He as [<-|He]; [discriminate|]);
           destruct He|]).
  destruct Hpoint.
Defined.

(** ** Invariants of the histories along a run *)

(** What a frame does to a property of the tracked histories. *)
Lemma frame_histories (P P' : list Entry -> Prop) poses now gnow (s s' : State) :
  wf s ->
  (forall point h, In point tracked -> P h ->
     P' (ingestHistory (present poses point) now h)) ->
  hist_all P s ->
  updateKeypointsData poses now gnow s = Some s' ->
  hist_all P' s'.
Proof.
  intros Hwf Hstep Hall Hrun.
  destruct (updateKeypointsData_wf poses now gnow s Hwf)
    as (s1 & s2 & Hing & _ & Hrun' & Hkd & _ & _).
  assert (s2 = s') by congruence. subst s2.
  destruct (ingest_wf poses now s Hwf) as (s1' & Hing' & _ & Hin & _).
  assert (s1' = s1) by congruence. subst s1'.
  intros point h Hpoint Hh. rewrite Hkd, (Hin point Hpoint) in Hh.
  injection Hh as <-. apply Hstep; [exact Hpoint|].
  unfold wf, wf_data in Hwf. rewrite Forall_forall in Hwf.
  destruct (Hwf point ltac:(apply list_elem_of_In; exact Hpoint)) as [arr Harr].
  rewrite (history_lookup _ _ _ Harr). exact (Hall point arr Hpoint Harr).
Qed.

Lemma ingestHistory_anchored slot now (h : list Entry) :
  anchored h -> anchored (ingestHistory slot now h).
Proof.
  destruct slot as [k|]; [intros _|exact (fun H => H)].
  rewrite ingestHistory_append. unfold anchored. rewrite last_snoc.
  apply Forall_app. split.
  - rewrite Forall_forall. intros e He. apply list_elem_of_In in He.
    apply filter_In in He. destruct He as [_ He]. now apply within_lt.
  - constructor; [|constructor]. apply within_lt. apply within_self.
Qed.

Lemma run_anchored (events : list Event) (s s' : State) :
  wf s -> hist_all anchored s -> run events s = Some s' -> hist_all anchored s'.
Proof.
  revert s. induction events as [|e events IH]; intros s Hwf Hall.
  - intros [= <-]. exact Hall.
  - unfold run. simpl. destruct (step s e) as [s1|] eqn:Hstep; [|discriminate].
    destruct (step_wf s e Hwf) as (s1' & Hstep' & Hwf1).
    assert (s1' = s1) by congruence. subst s1'.
    apply IH; [exact Hwf1|].
    destruct e as [poses now gnow|v|]; simpl in Hstep.
    + apply (frame_histories anchored anchored poses now gnow s s1 Hwf); auto.
      intros point h _. apply ingestHistory_anchored.
    + injection Hstep as <-. exact Hall.
    + injection Hstep as <-. exact Hall.
Qed.

Lemma init_histories (P : list Entry -> Prop) : P [] -> hist_all P init.
Proof.
  intros Hnil point h Hpoint Hh. unfold tracked in Hpoint.
  repeat (destruct Hpoint as [<-|Hpoint];
          [vm_compute in Hh; injection Hh as <-; exact Hnil|]).
  destruct Hpoint.
Qed.

(** What pruning does guarantee: whatever frames, slider moves and clicks
    come, from start-up every entry of every tracked history is less than
    5000 ms older than the newest entry of that history. *)
Theorem histories_anchored (events : list Event) :
  exists s,
    run events init = Some s
    /\ forall point h newest e,
         In point tracked ->
         keypointsData s !! point = Some h ->
         last h = Some newest ->
         In e h ->
         time newest - time e < DATA_RETENTION_WINDOW.
Proof.
  destruct (run_wf events init init_wf) as (s & Hrun & _).
  exists s. split; [exact Hrun|].
  intros point h newest e Hpoint Hh Hlast He.
  assert (Hanch : anchored h).
  { apply (run_anchored events init s init_wf (init_histories anchored I) Hrun
             point h Hpoint Hh). }
  unfold anchored in Hanch. rewrite Hlast, Forall_forall in Hanch.
  apply Hanch. apply list_elem_of_In. exact He.
Qed.

Lemma histories_anchored_witness :
  exists s,
    run (stale_run ++ [Frame (Some [nose_only 120]) 6100 6100;
                       Frame (Some [nose_only 130]) 6200 6200]) init = Some s
    /\ keypointsData s !! 0%nat
       = Some [{| time := 6100; y := 120 |}; {| time := 6200; y := 130 |}]
    /\ 6200 - 6100 < DATA_RETENTION_WINDOW.
Proof.
  destruct (histories_anchored
              (stale_run ++ [Frame (Some [nose_only 120]) 6100 6100;
                             Frame (Some [nose_only 130]) 6200 6200]))
    as (s & Hrun & Hanch).
  exists s. split; [exact Hrun|].
  assert (Hh : keypointsData s !! 0%nat
               = Some [{| time := 6100; y := 120 |}; {| time := 6200; y := 130 |}]).
  { vm_compute in Hrun. injection Hrun as <-. reflexivity. }
  split; [exact Hh|].
  apply (Hanch 0%nat _ {| time := 6200; y := 130 |} {| time := 6100; y := 120 |}
           ltac:(simpl; auto) Hh eq_refl).
  left; reflexivity.
Defined.

(** *** Order of time *)

Lemma StronglySorted_filter {A} (R : A -> A -> Prop) (f : A -> bool) (l : list A) :
  StronglySorted R l -> StronglySorted R (List.filter f l).
Proof.
  induction 1 as [|x l Hs IH Hall]; simpl; [constructor|].
  destruct (f x); [|exact IH].
  constructor; [exact IH|].
  rewrite Forall_forall in Hall |- *. intros a Ha. apply Hall.
  apply list_elem_of_In in Ha. apply filter_In in Ha.
  apply list_elem_of_In. tauto.
Qed.

Lemma StronglySorted_snoc {A} (R : A -> A -> Prop) (l : list A) (x : A) :
  StronglySorted R l -> Forall (fun a => R a x) l -> StronglySorted R (l ++ [x]).
Proof.
  induction 1 as [|a l Hs IH Hall]; intros Hx; simpl.
  - constructor; constructor.
  - apply Forall_cons in Hx. destruct Hx as [Hax Hx].
    constructor; [exact (IH Hx)|].
    apply Forall_app. split; [exact Hall|]. constructor; [exact Hax|constructor].
Qed.

Lemma ingestHistory_sorted slot hw now (h : list Entry) :
  hw <= now -> sorted_upto hw h -> sorted_upto now (ingestHistory slot now h).
Proof.
  intros Hle [Hsorted Hupto].
  assert (Hupto' : Forall (fun e => time e <= now) h).
  { rewrite Forall_forall in Hupto |- *. intros e He.
    exact (Qle_trans _ _ _ (Hupto e He) Hle). }
  destruct slot as [k|]; [|split; assumption].
  rewrite ingestHistory_append. split.
  - apply StronglySorted_snoc; [now apply StronglySorted_filter|].
    rewrite Forall_forall in Hupto' |- *. intros e He.
    apply list_elem_of_In in He. apply filter_In in He.
    unfold by_time. simpl. apply Hupto'. apply list_elem_of_In. tauto.
  - apply Forall_app. split.
    + rewrite Forall_forall in Hupto' |- *. intros e He.
      apply list_elem_of_In in He. apply filter_In in He.
      apply Hupto'. apply list_elem_of_In. tauto.
    + constructor; [apply Qle_refl|constructor].
Qed.

Lemma run_sorted (events : list Event) (hw : Q) (s s' : State) :
  wf s ->
  hist_all (sorted_upto hw) s ->
  StronglySorted Qle (hw :: frame_clocks events) ->
  run events s = Some s' ->
  exists hw', hist_all (sorted_upto hw') s'.
Proof.
  revert hw s. induction events as [|e events IH]; intros hw s Hwf Hall Hclocks.
  - intros [= <-]. exists hw. exact Hall.
  - unfold run. simpl. destruct (step s e) as [s1|] eqn:Hstep; [|discriminate].
    destruct (step_wf s e Hwf) as (s1' & Hstep' & Hwf1).
    assert (s1' = s1) by congruence. subst s1'.
    destruct e as [poses now gnow|v|]; simpl in Hstep, Hclocks.
    + apply StronglySorted_inv in Hclocks. destruct Hclocks as [Hrest Hhw].
      apply Forall_cons in Hhw. destruct Hhw as [Hle _].
      apply (IH now s1 Hwf1); [|exact Hrest].
      apply (frame_histories (sorted_upto hw) (sorted_upto now)
               poses now gnow s s1 Hwf); auto.
      intros point h _. now apply ingestHistory_sorted.
    + injection Hstep as <-. now apply (IH hw _ Hwf1).
    + injection Hstep as <-. now apply (IH hw _ Hwf1).
Qed.

(** When the clock readings of [updateKeypointsData] never go back along a
    run from start-up, every tracked history is in order of time. *)
Theorem histories_sorted (events : list Event) :
  Sorted Qle (frame_clocks events) ->
  exists s,
    run events init = Some s
    /\ forall point h,
         In point tracked -> keypointsData s !! point = Some h ->
         StronglySorted by_time h.
Proof.
  intros Hclocks.
  assert (Htrans : Relations_1.Transitive Qle).
  { intros a b c. apply Qle_trans. }
  apply (Sorted_StronglySorted Htrans) in Hclocks.
  destruct (run_wf events init init_wf) as (s & Hrun & _).
  exists s. split; [exact Hrun|].
  set (hw := match frame_clocks events with [] => 0 | t :: _ => t end).
  assert (Hhw : StronglySorted Qle (hw :: frame_clocks events)).
  { constructor; [exact Hclocks|]. subst hw.
    destruct (frame_clocks events) as [|t clocks]; [constructor|].
    apply StronglySorted_inv in Hclocks. destruct Hclocks as [_ Hall].
    constructor; [apply Qle_refl|exact Hall]. }
  assert (Hinit : hist_all (sorted_upto hw) init).
  { apply init_histories. split; constructor. }
  destruct (run_sorted events hw init s init_wf Hinit Hhw Hrun) as (hw' & Hall).
  intros point h Hpoint Hh. exact (proj1 (Hall point h Hpoint Hh)).
Qed.

Lemma histories_sorted_witness :
  Sorted Qle (frame_clocks three_frames)
  /\ exists s,
       run three_frames init = Some s
       /\ forall point h,
            In point tracked -> keypointsData s !! point = Some h ->
            StronglySorted by_time h.
Proof.
  assert (Hclocks : Sorted Qle (frame_clocks three_frames)).
  { simpl. repeat constructor; discriminate. }
  split; [exact Hclocks|].
  exact (histories_sorted three_frames Hclocks).
Defined.

(** ** Where beeps and entries come from *)

Lemma frame_alert_state poses now gnow (s s' : State) :
  updateKeypointsData poses now gnow s = Some s' ->
  alertEnabled s' = alertEnabled s
  /\ threshold s' = threshold s
  /\ ((alertEnabled s = true
       /\ beeps s' = standard_beep gnow :: beeps s /\ lastBeepTime s' = gnow)
      \/ (beeps s' = beeps s /\ lastBeepTime s' = lastBeepTime s)).
Proof.
  unfold updateKeypointsData.
  destruct (ingest poses now s) as [s1|] eqn:Hing; [|discriminate].
  assert (Hs1 : alertEnabled s1 = alertEnabled s /\ threshold s1 = threshold s
                /\ beeps s1 = beeps s /\ lastBeepTime s1 = lastBeepTime s).
  { unfold ingest in Hing. destruct poses as [[|pose0 rest]|];
      try (injection Hing as <-; now auto).
    destruct (forEach _ tracked _) as [kd|]; [|discriminate].
    injection Hing as <-. now auto. }
  destruct Hs1 as (Hen & Hthr & Hb & Hl).
  unfold updateGraph.
  destruct (mapE _ tracked) as [graphData|]; [|discriminate].
  cbv zeta. destruct (forEach _ tracked []) as [pool|]; [|discriminate].
  intros [= <-]. case_checkAlert.
  - rewrite Hb. split; [exact Hen|]. split; [exact Hthr|]. left.
    split; [congruence|]. split; reflexivity.
  - rewrite Hb, Hl. split; [exact Hen|]. split; [exact Hthr|]. right.
    split; reflexivity.
Qed.

(** The alert is off until the button is clicked: along a run without a
    click, from a state in which [alertEnabled] is false (start-up is one),
    no beep is made and [lastBeepTime] does not move, whatever is seen and
    wherever the slider is put. *)
Theorem silent_without_click (events : list Event) (s : State) :
  wf s ->
  alertEnabled s = false ->
  forallb (fun e => negb (is_click e)) events = true ->
  exists s',
    run events s = Some s'
    /\ alertEnabled s' = false
    /\ beeps s' = beeps s
    /\ lastBeepTime s' = lastBeepTime s.
Proof.
  revert s. induction events as [|e events IH]; intros s Hwf Hoff Hnoclick.
  - exists s. auto.
  - simpl in Hnoclick. apply andb_prop in Hnoclick. destruct Hnoclick as [He Hrest].
    destruct (step_wf s e Hwf) as (s1 & Hstep & Hwf1).
    assert (Hs1 : alertEnabled s1 = false /\ beeps s1 = beeps s
                  /\ lastBeepTime s1 = lastBeepTime s).
    { destruct e as [poses now gnow|v|]; simpl in Hstep, He.
      - destruct (frame_alert_state _ _ _ _ _ Hstep)
          as (Hen & _ & [(Hon & _)|[Hb Hl]]); [congruence|].
        split; [congruence|]. now split.
      - injection Hstep as <-. now auto.
      - discriminate He. }
    destruct Hs1 as (Hoff1 & Hb1 & Hl1).
    destruct (IH s1 Hwf1 Hoff1 Hrest) as (s' & Hrun & Hoff' & Hb' & Hl').
    exists s'. unfold run in *. simpl. rewrite Hstep.
    split; [exact Hrun|]. split; [exact Hoff'|]. split; congruence.
Qed.

Lemma silent_without_click_witness :
  wf init
  /\ alertEnabled init = false
  /\ exists s',
       run [SliderInput 100; Frame (Some [nose_only 400]) 2000 2000;
            Frame (Some [nose_only 400]) 4000 4000] init = Some s'
       /\ alertEnabled s' = false
       /\ beeps s' = beeps init
       /\ lastBeepTime s' = lastBeepTime init.
Proof.
  assert (Hwf : wf init) by solve_wf.
  split; [exact Hwf|]. split; [reflexivity|].
  exact (silent_without_click
           [SliderInput 100; Frame (Some [nose_only 400]) 2000 2000;
            Frame (Some [nose_only 400]) 4000 4000] init Hwf eq_refl eq_refl).
Defined.

Lemma run_beeps (events : list Event) (s s' : State) :
  run events s = Some s' ->
  exists new,
    beeps s' = new ++ beeps s
    /\ (length new <= length (List.filter is_frame events))%nat
    /\ forall b, In b new ->
         exists poses currentTime,
           In (Frame poses currentTime (beep_at b)) events
           /\ b = standard_beep (beep_at b).
Proof.
  revert s. induction events as [|e events IH]; intros s.
  - intros [= <-]. exists []. split; [reflexivity|]. split; [reflexivity|].
    intros b [].
  - unfold run. simpl. destruct (step s e) as [s1|] eqn:Hstep; [|discriminate].
    intros Hrun. destruct (IH s1 Hrun) as (new & Hnew & Hlen & Hfrom).
    destruct e as [poses now gnow|v|]; simpl in Hstep.
    + destruct (frame_alert_state _ _ _ _ _ Hstep)
        as (_ & _ & [(_ & Hb & _)|[Hb _]]).
      * exists (new ++ [standard_beep gnow]). rewrite Hnew, Hb, <- app_assoc.
        split; [reflexivity|]. split.
        { rewrite length_app. simpl. lia. }
        intros b Hb'. apply in_app_or in Hb'. destruct Hb' as [Hb'|[<-|[]]].
        -- destruct (Hfrom b Hb') as (poses' & t' & Hin & Estd).
           exists poses', t'. split; [right; exact Hin|exact Estd].
        -- exists poses, now. split; [left; reflexivity|reflexivity].
      * exists new. rewrite Hnew, Hb. split; [reflexivity|]. split.
        { simpl. lia. }
        intros b Hb'. destruct (Hfrom b Hb') as (poses' & t' & Hin & Estd).
        exists poses', t'. split; [right; exact Hin|exact Estd].
    + injection Hstep as <-. exists new. split; [exact Hnew|].
      split; [exact Hlen|].
      intros b Hb'. destruct (Hfrom b Hb') as (poses' & t' & Hin & Estd).
      exists poses', t'. split; [right; exact Hin|exact Estd].
    + injection Hstep as <-. exists new. split; [exact Hnew|].
      split; [exact Hlen|].
      intros b Hb'. destruct (Hfrom b Hb') as (poses' & t' & Hin & Estd).
      exists poses', t'. split; [right; exact Hin|exact Estd].
Qed.

(** Beeps come from frames only: along any run from start-up there are at
    most as many beeps as frames, and every beep is [beep(0.2, 440, 300)],
    made by the [updateGraph] of a frame at that frame's clock reading. *)
Theorem beeps_from_frames (events : list Event) :
  exists s,
    run events init = Some s
    /\ (length (beeps s) <= length (List.filter is_frame events))%nat
    /\ forall b, In b (beeps s) ->
         b = standard_beep (beep_at b)
         /\ exists poses currentTime,
              In (Frame poses currentTime (beep_at b)) events.
Proof.
  destruct (run_wf events init init_wf) as (s & Hrun & _).
  exists s. split; [exact Hrun|].
  destruct (run_beeps events init s Hrun) as (new & Hnew & Hlen & Hfrom).
  simpl in Hnew. rewrite app_nil_r in Hnew. subst new.
  split; [exact Hlen|]. intros b Hb.
  destruct (Hfrom b Hb) as (poses & t & Hin & Estd). eauto.
Qed.

Lemma ingestHistory_from slot now (h : list Entry) (e : Entry) :
  In e (ingestHistory slot now h) ->
  In e h \/ exists k, slot = Some k /\ e = observation now k.
Proof.
  destruct slot as [k|]; [|now left].
  rewrite ingestHistory_append. intros He. apply in_app_or in He.
  destruct He as [He|[<-|[]]].
  - left. apply filter_In in He. tauto.
  - right. eauto.
Qed.

Lemma run_entries (events : list Event) (s s' : State) :
  wf s ->
  run events s = Some s' ->
  forall point h e,
    In point tracked -> keypointsData s' !! point = Some h -> In e h ->
    In e (history (keypointsData s) point)
    \/ exists poses currentTime graphTime k,
         In (Frame poses currentTime graphTime) events
         /\ present poses point = Some k
         /\ e = {| time := currentTime; y := kp_y k |}.
Proof.
  revert s. induction events as [|ev events IH]; intros s Hwf.
  - intros [= <-] point h e _ Hh He. left. now rewrite (history_lookup _ _ _ Hh).
  - unfold run. simpl. destruct (step s ev) as [s1|] eqn:Hstep; [|discriminate].
    destruct (step_wf s ev Hwf) as (s1' & Hstep' & Hwf1).
    assert (s1' = s1) by congruence. subst s1'.
    intros Hrun point h e Hpoint Hh He.
    destruct (IH s1 Hwf1 Hrun point h e Hpoint Hh He)
      as [Hold|(poses & t & g & k & Hin & Hk & Ee)].
    + destruct ev as [poses now gnow|v|]; simpl in Hstep.
      * destruct (updateKeypointsData_wf poses now gnow s Hwf)
          as (s2 & s3 & Hing & _ & Hrun' & Hkd & _ & _).
        assert (s3 = s1) by congruence. subst s3.
        destruct (ingest_wf poses now s Hwf) as (s2' & Hing' & _ & Hat & _).
        assert (s2' = s2) by congruence. subst s2'.
        unfold history in Hold at 1. rewrite Hkd, (Hat point Hpoint) in Hold.
        simpl in Hold. apply ingestHistory_from in Hold.
        destruct Hold as [Hold|(k & Hk & ->)]; [now left|].
        right. exists poses, now, gnow, k.
        split; [left; reflexivity|]. now split.
      * injection Hstep as <-. now left.
      * injection Hstep as <-. now left.
    + right. exists poses, t, g, k. split; [right; exact Hin|]. now split.
Qed.

(** Nothing is stored that was not seen: along any run from start-up, every
    entry of a tracked history is the observation of a frame, with that
    frame's clock reading and the height of that keypoint in the first pose
    of that frame. *)
Theorem entries_from_frames (events : list Event) :
  exists s,
    run events init = Some s
    /\ forall point h e,
         In point tracked -> keypointsData s !! point = Some h -> In e h ->
         exists poses currentTime graphTime k,
           In (Frame poses currentTime graphTime) events
           /\ present poses point = Some k
           /\ e = {| time := currentTime; y := kp_y k |}.
Proof.
  destruct (run_wf events init init_wf) as (s & Hrun & _).
  exists s. split; [exact Hrun|].
  intros point h e Hpoint Hh He.
  destruct (run_entries events init s init_wf Hrun point h e Hpoint Hh He)
    as [Hold|Hnew]; [|exact Hnew].
  exfalso. unfold tracked in Hpoint.
  repeat (destruct Hpoint as [<-|Hpoint]; [exact Hold|]). destruct Hpoint.
Qed.

(** ** The inference-time panel *)

Lemma Qle_bool_false (a b : Q) : Qle_bool a b = false <-> b < a.
Proof.
  split.
  - intros H. apply Qnot_le_lt. intros Hle. apply Qle_bool_iff in Hle. congruence.
  - intros H. destruct (Qle_bool a b) eqn:E; [|reflexivity].
    apply Qle_bool_iff in E. exfalso. exact (Qlt_not_le _ _ H E).
Qed.

(** One timed inference, case by case: the panel is updated and the counters
    start again, or the inference is added to the counters. *)
Lemma timed_cases (st : Stats) (span : Q * Q) :
  (1000 <= snd span - lastPanelUpdate st
   /\ timed st span =
      Some {| startInferenceTime := Some (fst span);
              numInferences := 0;
              inferenceTimeSum := 0;
              lastPanelUpdate := snd span;
              panel := {| panel_at := snd span;
                          panel_value :=
                            fps ((inferenceTimeSum st + duration span)
                                 / inject_Z (Z.of_nat (S (numInferences st))));
                          panel_maxValue := 120 |} :: panel st |})
  \/ (snd span - lastPanelUpdate st < 1000
      /\ timed st span =
         Some {| startInferenceTime := Some (fst span);
                 numInferences := S (numInferences st);
                 inferenceTimeSum := inferenceTimeSum st + duration span;
                 lastPanelUpdate := lastPanelUpdate st;
                 panel := panel st |}).
Proof.
  unfold timed, endEstimatePosesStats, beginEstimatePosesStats, duration.
  cbn [startInferenceTime numInferences inferenceTimeSum lastPanelUpdate panel].
  cbv zeta.
  destruct (Qle_bool 1000 (snd span - lastPanelUpdate st)) eqn:E.
  - left. apply Qle_bool_iff in E. split; [exact E|reflexivity].
  - right. apply Qle_bool_false in E. split; [exact E|reflexivity].
Qed.

Lemma timed_panel_ok (st st' : Stats) (span : Q * Q) :
  panel_ok st -> timed st span = Some st' -> panel_ok st'.
Proof.
  intros [Hsorted Hhead] Hrun.
  destruct (timed_cases st span) as [[Hgap E]|[_ E]];
    rewrite E in Hrun; injection Hrun as <-; unfold panel_ok; simpl;
    [|split; assumption].
  split; [|reflexivity]. constructor; [exact Hsorted|].
  destruct (panel st) as [|u0 us]; [constructor|].
  apply StronglySorted_inv in Hsorted. destruct Hsorted as [_ Hall].
  assert (H0 : 1000 <= snd span - panel_at u0) by now rewrite Hhead.
  constructor; [exact H0|].
  rewrite Forall_forall in Hall |- *. intros u' Hu'.
  specialize (Hall u' Hu'). unfold panel_after in *. simpl.
  assert (E' : snd span - panel_at u'
               == (snd span - panel_at u0) + (panel_at u0 - panel_at u')) by ring.
  rewrite E'.
  apply Qle_trans with (y := (snd span - panel_at u0) + 0).
  - now rewrite Qplus_0_r.
  - apply Qplus_le_r. apply Qle_trans with (y := 1000); [discriminate|exact Hall].
Qed.

Lemma timed_total (st : Stats) (span : Q * Q) : exists st', timed st span = Some st'.
Proof. destruct (timed_cases st span) as [[_ ->]|[_ ->]]; eauto. Qed.

Lemma forEach_timed_total (spans : list (Q * Q)) (st : Stats) :
  exists st', forEach timed spans st = Some st'.
Proof.
  revert st. induction spans as [|span spans IH]; intros st; simpl; [eauto|].
  destruct (timed_total st span) as [st1 ->]. apply IH.
Qed.

Lemma forEach_timed_panel_ok (spans : list (Q * Q)) (st st' : Stats) :
  panel_ok st -> forEach timed spans st = Some st' -> panel_ok st'.
Proof.
  revert st. induction spans as [|span spans IH]; intros st Hok; simpl.
  - intros [= <-]. exact Hok.
  - destruct (timed st span) as [st1|] eqn:E; [|discriminate].
    apply IH. exact (timed_panel_ok st st1 span Hok E).
Qed.

(** The panel is refreshed at most once per second: whatever the timed
    inferences, from start-up any two calls of [customFpsPanel.update] are
    at least 1000 ms apart (the log is latest first); here the test is
    [>= 1000], so exactly 1000 ms is enough. *)
Theorem panel_updates_spaced (spans : list (Q * Q)) :
  exists st,
    forEach timed spans stats_init = Some st
    /\ forall (i j : nat) (later earlier : PanelUpdate),
         (i < j)%nat ->
         panel st !! i = Some later ->
         panel st !! j = Some earlier ->
         1000 <= panel_at later - panel_at earlier.
Proof.
  destruct (forEach_timed_total spans stats_init) as [st Hrun].
  exists st. split; [exact Hrun|].
  assert (Hinit : panel_ok stats_init) by (split; [constructor|exact I]).
  destruct (forEach_timed_panel_ok spans _ _ Hinit Hrun) as [Hsorted _].
  intros i j later earlier Hij Hi Hj.
  exact (StronglySorted_lookup _ _ Hsorted i j later earlier Hij Hi Hj).
Qed.

Lemma panel_updates_spaced_witness :
  exists st,
    forEach timed [(990, 1000); (1500, 1510); (1990, 2000)] stats_init = Some st
    /\ length (panel st) = 2%nat
    /\ forall later earlier,
         panel st !! 0%nat = Some later -> panel st !! 1%nat = Some earlier ->
         1000 <= panel_at later - panel_at earlier.
Proof.
  destruct (panel_updates_spaced [(990, 1000); (1500, 1510); (1990, 2000)])
    as (st & Hrun & Hgap).
  exists st. split; [exact Hrun|]. split.
  - vm_compute in Hrun. injection Hrun as <-. reflexivity.
  - intros later earlier H0 H1. exact (Hgap 0%nat 1%nat later earlier ltac:(lia) H0 H1).
Defined.

Lemma fps_positive (a : Q) : 0 <= a -> shown_positive (fps a).
Proof.
  intros Ha. unfold fps. destruct (Qeq_bool a 0) eqn:E; simpl; [exact I|].
  assert (Hpos : 0 < a).
  { apply Qle_lt_or_eq in Ha. destruct Ha as [Ha|Ha]; [exact Ha|].
    exfalso. symmetry in Ha. apply Qeq_bool_iff in Ha. congruence. }
  apply Qlt_shift_div_l; [exact Hpos|]. rewrite Qmult_0_l. reflexivity.
Qed.

Lemma timed_positive (st st' : Stats) (span : Q * Q) :
  fst span <= snd span ->
  0 <= inferenceTimeSum st ->
  Forall (fun u => shown_positive (panel_value u)) (panel st) ->
  timed st span = Some st' ->
  0 <= inferenceTimeSum st'
  /\ Forall (fun u => shown_positive (panel_value u)) (panel st').
Proof.
  intros Hspan Hsum Hpanel Hrun.
  assert (Hd : 0 <= inferenceTimeSum st + duration span).
  { unfold duration. rewrite <- (Qplus_0_r 0).
    apply Qplus_le_compat; [exact Hsum|].
    now apply (Qplus_le_l _ _ (fst span)); ring_simplify. }
  destruct (timed_cases st span) as [[_ E]|[_ E]];
    rewrite E in Hrun; injection Hrun as <-; simpl; [|now split].
  split; [apply Qle_refl|]. constructor; [|exact Hpanel]. simpl.
  apply fps_positive. apply Qle_shift_div_l.
  - unfold Qlt. simpl. lia.
  - now rewrite Qmult_0_l.
Qed.

(** With a clock that does not go back between the start and the end of an
    inference, the panel never shows a negative rate: every value handed to
    [customFpsPanel.update] is a positive number or [Infinity]. *)
Theorem panel_never_negative (spans : list (Q * Q)) :
  Forall (fun span => fst span <= snd span) spans ->
  exists st,
    forEach timed spans stats_init = Some st
    /\ forall u, In u (panel st) -> shown_positive (panel_value u).
Proof.
  intros Hspans.
  assert (Hgen : forall st,
            0 <= inferenceTimeSum st ->
            Forall (fun u => shown_positive (panel_value u)) (panel st) ->
            exists st', forEach timed spans st = Some st'
              /\ Forall (fun u => shown_positive (panel_value u)) (panel st')).
  { induction spans as [|span spans IH]; intros st Hsum Hpanel.
    - exists st. now split.
    - apply Forall_cons in Hspans. destruct Hspans as [Hspan Hrest].
      destruct (timed_total st span) as [st1 E]. simpl. rewrite E.
      destruct (timed_positive st st1 span Hspan Hsum Hpanel E) as [Hsum1 Hpanel1].
      exact (IH Hrest st1 Hsum1 Hpanel1). }
  destruct (Hgen stats_init) as (st & Hrun & Hall).
  - discriminate.
  - constructor.
  - exists st. split; [exact Hrun|]. intros u Hu.
    rewrite Forall_forall in Hall. apply Hall. apply list_elem_of_In. exact Hu.
Qed.

Lemma panel_never_negative_witness :
  Forall (fun span => fst span <= snd span) [(1000, 1000); (1990, 2030)]
  /\ exists st,
       forEach timed [(1000, 1000); (1990, 2030)] stats_init = Some st
       /\ map panel_value (panel st) = [Finite (1000 / (40 / 1)); Infinity]
       /\ forall u, In u (panel st) -> shown_positive (panel_value u).
Proof.
  assert (Hspans : Forall (fun span : Q * Q => fst span <= snd span)
                          [(1000, 1000); (1990, 2030)]).
  { repeat constructor; discriminate. }
  split; [exact Hspans|].
  destruct (panel_never_negative _ Hspans) as (st & Hrun & Hpos).
  exists st. split; [exact Hrun|]. split; [|exact Hpos].
  vm_compute in Hrun. injection Hrun as <-. reflexivity.
Defined.

(** ** createDetector *)

Lemma before_dash_split (s : string) :
  exists rest,
    s = String.append (before_dash s) rest
    /\ (rest = EmptyString \/ exists r, rest = String "-"%char r).
Proof.
  induction s as [|c s (rest & Es & Hrest)]; simpl.
  - exists EmptyString. split; [reflexivity|now left].
  - destruct (Ascii.eqb c "-"%char) eqn:E.
    + apply Ascii.eqb_eq in E. subst c. exists (String "-"%char s).
      split; [reflexivity|]. right. eauto.
    + exists rest. split; [|exact Hrest]. rewrite Es at 1. reflexivity.
Qed.

Lemma before_dash_no_dash (s : string) :
  ~ In "-"%char (String.list_ascii_of_string (before_dash s)).
Proof.
  induction s as [|c s IH]; simpl; [tauto|].
  destruct (Ascii.eqb c "-"%char) eqn:E; simpl; [tauto|].
  intros [Hc|Hin]; [|exact (IH Hin)].
  subst c. rewrite Ascii.eqb_refl in E. discriminate.
Qed.

(** The runtime [createDetector] reads off [STATE.backend] with
    [split('-')[0]] is the part before the first dash: it has no dash, and
    the backend name is the runtime alone or the runtime, a dash and more;
    a backend name without a dash is its own runtime. *)
Theorem runtime_of_backend (s : string) :
  (exists rest,
     s = String.append (before_dash s) rest
     /\ (rest = EmptyString \/ exists r, rest = String "-"%char r))
  /\ ~ In "-"%char (String.list_ascii_of_string (before_dash s))
  /\ (~ In "-"%char (String.list_ascii_of_string s) -> before_dash s = s).
Proof.
  split; [apply before_dash_split|]. split; [apply before_dash_no_dash|].
  induction s as [|c s IH]; simpl; [reflexivity|].
  intros Hno. destruct (Ascii.eqb c "-"%char) eqn:E.
  - apply Ascii.eqb_eq in E. exfalso. apply Hno. left. now symmetry.
  - f_equal. apply IH. intros Hin. apply Hno. right; exact Hin.
Qed.

(** For BlazePose with a runtime that is neither [mediapipe] nor [tfjs],
    [createDetector] does not stop in the BlazePose case: it goes on into
    the MoveNet case and asks the library for a detector of the BlazePose
    model with a MoveNet configuration.  With a model type that is none of
    [lightning], [thunder], [multipose], that configuration has neither
    [modelType] nor [enableTracking]. *)
Theorem blazepose_falls_through (lib : Library) (st : Params) :
  model st = BlazePose lib ->
  model st <> PoseNet lib ->
  before_dash (backend st) <> "mediapipe" ->
  before_dash (backend st) <> "tfjs" ->
  createDetector lib st = moveNetCase lib st
  /\ (type (modelConfig st) <> "lightning" ->
      type (modelConfig st) <> "thunder" ->
      type (modelConfig st) <> "multipose" ->
      exists modelUrl,
        createDetector lib st
        = Some (BlazePose lib, MoveNetConfig None modelUrl None)).
Proof.
  intros Hblaze Hnot Hmp Htf.
  assert (E : createDetector lib st = moveNetCase lib st).
  { unfold createDetector.
    apply String.eqb_neq in Hnot, Hmp, Htf. rewrite Hnot.
    rewrite Hblaze at 1. rewrite String.eqb_refl. cbv zeta.
    now rewrite Hmp, Htf. }
  split; [exact E|]. intros Hl Ht Hm. rewrite E. unfold moveNetCase.
  apply String.eqb_neq in Hl, Ht, Hm. rewrite Hl, Ht, Hm, Hblaze.
  cbv zeta. eauto.
Qed.

Lemma blazepose_falls_through_witness :
  let st := {| model := "BlazePose"; backend := "wasm";
               modelConfig := {| type := "full"; customModel := "";
                                 enableTracking := false |};
               isTargetFPSChanged := false; isSizeOptionChanged := false;
               isModelChanged := false; isFlagChanged := false;
               isBackendChanged := false |} in
  createDetector (library "0.5") st
  = Some ("BlazePose", MoveNetConfig None None None).
Proof.
  intros st.
  destruct (blazepose_falls_through (library "0.5") st eq_refl
              ltac:(vm_compute; discriminate) ltac:(vm_compute; discriminate)
              ltac:(vm_compute; discriminate)) as [_ Hcfg].
  destruct (Hcfg ltac:(vm_compute; discriminate) ltac:(vm_compute; discriminate)
              ltac:(vm_compute; discriminate)) as [modelUrl E].
  rewrite E. vm_compute in E. injection E as <-. reflexivity.
Defined.

(** ** The render loop *)

Lemma checkGuiUpdate_effect (lib : Library) (outcome : Creation) (p : Page) :
  let p1 := checkGuiUpdate lib outcome p in
  isTargetFPSChanged (STATE p1) = false
  /\ isSizeOptionChanged (STATE p1) = false
  /\ isModelChanged (STATE p1) = false
  /\ isFlagChanged (STATE p1) = false
  /\ isBackendChanged (STATE p1) = false
  /\ model (STATE p1) = model (STATE p)
  /\ backend (STATE p1) = backend (STATE p)
  /\ modelConfig (STATE p1) = modelConfig (STATE p)
  /\ aggregator p1 = aggregator p
  /\ stats p1 = stats p
  /\ useGpuRenderer p1 = useGpuRenderer p
  /\ drawn p1 = drawn p.
Proof.
  unfold checkGuiUpdate.
  destruct p as [[m b mc f1 f2 f3 f4 f5] a st d g ds al dr]. simpl.
  destruct f1, f2, f3, f4, f5; simpl;
    try (destruct (createDetector lib _) as [req|]; [destruct outcome|]; simpl);
    repeat split; reflexivity.
Qed.

Lemma checkGuiUpdate_no_change (lib : Library) (outcome : Creation) (p : Page) :
  no_change (STATE p) = true ->
  detector (checkGuiUpdate lib outcome p) = detector p
  /\ disposed (checkGuiUpdate lib outcome p) = disposed p
  /\ alerted (checkGuiUpdate lib outcome p) = alerted p.
Proof.
  unfold checkGuiUpdate, no_change.
  destruct p as [[m b mc f1 f2 f3 f4 f5] a st d g ds al dr]. simpl.
  destruct f1, f2, f3, f4, f5; simpl; intros H; try discriminate H;
    repeat split; reflexivity.
Qed.

Lemma renderPrediction_renders (lib : Library) (outcome : Creation)
  (est : Estimate) (c : Clocks) (p : Page) :
  renderPrediction lib outcome est c p
  = renderResult est c (checkGuiUpdate lib outcome p).
Proof.
  destruct (checkGuiUpdate_effect lib outcome p) as (_ & _ & H3 & _).
  unfold renderPrediction. cbv zeta. now rewrite H3.
Qed.

(** [checkGuiUpdate] always comes back with the five change flags of
    [STATE] cleared, so the test [!STATE.isModelChanged] of
    [renderPrediction] lets every turn through to [renderResult]
    ([checkGuiUpdate] being taken as one step, without a write of the option
    panel in between). *)
Theorem renderPrediction_always_renders (lib : Library) (outcome : Creation)
  (est : Estimate) (c : Clocks) (p : Page) :
  isTargetFPSChanged (STATE (checkGuiUpdate lib outcome p)) = false
  /\ isSizeOptionChanged (STATE (checkGuiUpdate lib outcome p)) = false
  /\ isModelChanged (STATE (checkGuiUpdate lib outcome p)) = false
  /\ isFlagChanged (STATE (checkGuiUpdate lib outcome p)) = false
  /\ isBackendChanged (STATE (checkGuiUpdate lib outcome p)) = false
  /\ renderPrediction lib outcome est c p
     = renderResult est c (checkGuiUpdate lib outcome p).
Proof.
  destruct (checkGuiUpdate_effect lib outcome p)
    as (H1 & H2 & H3 & H4 & H5 & _).
  repeat (split; [assumption|]).
  apply renderPrediction_renders.
Qed.

Lemma end_after_begin (b e : Q) (st : Stats) :
  endEstimatePosesStats e (beginEstimatePosesStats b st) = timed st (b, e).
Proof. reflexivity. Qed.

Lemma renderResult_dead (est : Estimate) (c : Clocks) (p : Page) :
  detector p = false ->
  renderResult est c p =
  Some {| STATE := STATE p; aggregator := aggregator p; stats := stats p;
          detector := false; useGpuRenderer := useGpuRenderer p;
          disposed := disposed p; alerted := alerted p;
          drawn := None :: drawn p |}.
Proof. unfold renderResult. now intros ->. Qed.

(** What a turn with a detector does: one timed inference and one call of
    [updateKeypointsData], with the poses, or with [null] if the [try]
    block threw. *)
Lemma renderResult_live (est : Estimate) (c : Clocks) (p : Page) :
  detector p = true ->
  wf (aggregator p) ->
  let poses := if throws p est then None
               else match est with
                    | Estimated ps => Some ps
                    | Failed => None
                    end in
  exists st a,
    timed (stats p) (beginTime c, endTime c) = Some st
    /\ updateKeypointsData poses (currentTime c) (graphTime c) (aggregator p)
       = Some a
    /\ wf a
    /\ renderResult est c p =
       Some {| STATE := STATE p; aggregator := a; stats := st;
               detector := negb (throws p est);
               useGpuRenderer := useGpuRenderer p;
               disposed := if throws p est then S (disposed p) else disposed p;
               alerted := if throws p est then S (alerted p) else alerted p;
               drawn := poses :: drawn p |}.
Proof.
  intros Hlive Hwf poses.
  destruct (timed_total (stats p) (beginTime c, endTime c)) as [st Hst].
  destruct (updateKeypointsData_wf poses (currentTime c) (graphTime c)
              (aggregator p) Hwf) as (s1 & a & _ & _ & Ha & _ & _ & Hwfa).
  exists st, a. split; [exact Hst|]. split; [exact Ha|]. split; [exact Hwfa|].
  unfold renderResult. rewrite Hlive, end_after_begin, Hst.
  fold poses. now rewrite Ha.
Qed.

Lemma updateKeypointsData_null now gnow (s : State) :
  updateKeypointsData None now gnow s = updateGraph gnow s.
Proof. reflexivity. Qed.

(** The frame on which the detector fails ([estimatePoses] throws, or the
    GPU renderer is on with a model other than PoseNet): the detector is
    disposed of and set to [null], the error is shown, the renderer gets
    [null], and [updateKeypointsData(null)] still runs: the histories are
    untouched, but [updateGraph] redraws the chart and may beep. *)
Theorem renderResult_failing_frame (est : Estimate) (c : Clocks) (p : Page) :
  wf (aggregator p) ->
  detector p = true ->
  throws p est = true ->
  exists a p',
    updateGraph (graphTime c) (aggregator p) = Some a
    /\ renderResult est c p = Some p'
    /\ aggregator p' = a
    /\ keypointsData a = keypointsData (aggregator p)
    /\ detector p' = false
    /\ disposed p' = S (disposed p)
    /\ alerted p' = S (alerted p)
    /\ drawn p' = None :: drawn p.
Proof.
  intros Hwf Hlive Hthrows.
  destruct (renderResult_live est c p Hlive Hwf) as (st & a & _ & Ha & _ & Hrun).
  rewrite Hthrows in Ha, Hrun. rewrite updateKeypointsData_null in Ha.
  eexists a, _. split; [exact Ha|]. split; [exact Hrun|]. simpl.
  split; [reflexivity|]. split; [apply (updateGraph_frame _ _ _ Ha)|].
  repeat split.
Qed.

Lemma renderResult_failing_frame_witness :
  let p := {| STATE := {| model := "MoveNet"; backend := "tfjs-webgl";
                          modelConfig := {| type := "lightning"; customModel := "";
                                            enableTracking := false |};
                          isTargetFPSChanged := false; isSizeOptionChanged := false;
                          isModelChanged := false; isFlagChanged := false;
                          isBackendChanged := false |};
              aggregator := slouching true; stats := stats_init;
              detector := true; useGpuRenderer := false;
              disposed := 0; alerted := 0; drawn := [] |} in
  let c := {| beginTime := 2400; endTime := 2450;
              currentTime := 2500; graphTime := 2500 |} in
  wf (aggregator p)
  /\ exists p',
       renderResult Failed c p = Some p'
       /\ detector p' = false
       /\ keypointsData (aggregator p') = keypointsData (slouching true)
       /\ beeps (aggregator p') = [standard_beep 2500].
Proof.
  intros p c. assert (Hwf : wf (aggregator p)) by solve_wf.
  split; [exact Hwf|].
  destruct (renderResult_failing_frame Failed c p Hwf eq_refl eq_refl)
    as (a & p' & Ha & Hrun & Hagg & Hkd & Hdead & _).
  exists p'. split; [exact Hrun|]. split; [exact Hdead|].
  rewrite Hagg. split; [exact Hkd|].
  vm_compute in Ha. injection Ha as <-. reflexivity.
Defined.

Lemma repeat_snoc_cons {A} (x : A) (n : nat) (l : list A) :
  repeat x n ++ x :: l = x :: repeat x n ++ l.
Proof. induction n as [|n IH]; simpl; [reflexivity|]. now rewrite IH. Qed.

(** The slider and the button act on [threshold] and [alertEnabled] only. *)
Lemma run_controls (controls : list Control) (s : State) :
  exists s',
    run (map control_event controls) s = Some s'
    /\ keypointsData s' = keypointsData s
    /\ chart_data s' = chart_data s
    /\ beeps s' = beeps s
    /\ lastBeepTime s' = lastBeepTime s.
Proof.
  revert s. induction controls as [|c controls IH]; intros s.
  - exists s. repeat split.
  - destruct c as [v|]; simpl;
      match goal with
      | |- context [run (_ :: _) _] => unfold run; simpl; fold (run (map control_event controls))
      end;
      [destruct (IH (onSliderInput v s)) as (s' & Hrun & Hkd & Hch & Hb & Hl)
      |destruct (IH (onToggleClick s)) as (s' & Hrun & Hkd & Hch & Hb & Hl)];
      exists s'; (split; [exact Hrun|]); simpl in *; repeat split; assumption.
Qed.

Lemma run_controls_wf (controls : list Control) (s s' : State) :
  wf s -> run (map control_event controls) s = Some s' -> wf s'.
Proof.
  intros Hwf Hrun.
  destruct (run_controls controls s) as (s1 & Hrun1 & Hkd & _).
  assert (s1 = s') by congruence. subst s1.
  unfold wf. now rewrite Hkd.
Qed.

Lemma controls_no_frame (controls : list Control) :
  List.filter is_frame (map control_event controls) = [].
Proof. induction controls as [|[v|] cs IH]; simpl; auto. Qed.

(** A turn without a detector, the option panel asking for none. *)
Lemma turn_dead (lib : Library) (p : Page) (t : Turn) :
  detector p = false ->
  no_change (turn_gui t (STATE p)) = true ->
  exists p',
    turn lib p t = Some p'
    /\ keypointsData (aggregator p') = keypointsData (aggregator p)
    /\ chart_data (aggregator p') = chart_data (aggregator p)
    /\ beeps (aggregator p') = beeps (aggregator p)
    /\ stats p' = stats p
    /\ detector p' = false
    /\ disposed p' = disposed p
    /\ alerted p' = alerted p
    /\ drawn p' = None :: drawn p
    /\ no_change (STATE p') = true.
Proof.
  intros Hdead Hquiet. unfold turn.
  destruct (run_controls (turn_controls t) (aggregator p))
    as (a & -> & Hkd & Hch & Hb & _).
  set (p0 := setAggregator a (setSTATE (turn_gui t (STATE p)) p)).
  rewrite renderPrediction_renders.
  destruct (checkGuiUpdate_effect lib (turn_outcome t) p0)
    as (_ & _ & H3 & H4 & H5 & _ & _ & _ & Hagg & Hst & _ & Hdr).
  destruct (checkGuiUpdate_no_change lib (turn_outcome t) p0 Hquiet)
    as (Hdet & Hdis & Hal).
  rewrite renderResult_dead by (rewrite Hdet; exact Hdead).
  eexists. split; [reflexivity|]. simpl.
  rewrite Hagg, Hst, Hdis, Hal, Hdr. simpl.
  unfold no_change. rewrite H3, H4, H5.
  repeat split; assumption.
Qed.

(** Once [detector] is [null] and no change flag is pending, and as long
    as the option panel sets none of [isModelChanged], [isFlagChanged],
    [isBackendChanged] (it may do nothing, or set the other flags), the loop
    goes on turning without a call of [updateKeypointsData] or of the
    statistics: whatever the user does with the slider and the button, the
    histories, the chart and the log of beeps stay as they are, no inference
    is timed, and the renderer gets [null] at every turn. *)
Theorem dead_detector_idle (lib : Library) (turns : list Turn) (p : Page) :
  detector p = false ->
  no_change (STATE p) = true ->
  Forall (fun t => forall st, no_change st = true ->
                              no_change (turn_gui t st) = true) turns ->
  exists p',
    loop lib turns p = Some p'
    /\ keypointsData (aggregator p') = keypointsData (aggregator p)
    /\ chart_data (aggregator p') = chart_data (aggregator p)
    /\ beeps (aggregator p') = beeps (aggregator p)
    /\ stats p' = stats p
    /\ detector p' = false
    /\ disposed p' = disposed p
    /\ alerted p' = alerted p
    /\ drawn p' = repeat None (length turns) ++ drawn p.
Proof.
  revert p. induction turns as [|t turns IH]; intros p Hdead Hclean Hquiet.
  - exists p. simpl. repeat split. exact Hdead.
  - apply Forall_cons in Hquiet. destruct Hquiet as [Ht Hrest].
    destruct (turn_dead lib p t Hdead (Ht (STATE p) Hclean))
      as (p1 & Hturn & Hkd & Hch & Hb & Hst & Hdead1 & Hdis & Hal & Hdr & Hclean1).
    destruct (IH p1 Hdead1 Hclean1 Hrest)
      as (p' & Hloop & Hkd' & Hch' & Hb' & Hst' & Hdead' & Hdis' & Hal' & Hdr').
    exists p'. unfold loop in *. simpl. rewrite Hturn.
    split; [exact Hloop|].
    rewrite Hkd', Hch', Hb', Hst', Hdis', Hal', Hdr', Hkd, Hch, Hb, Hst, Hdis, Hal, Hdr.
    rewrite repeat_snoc_cons. repeat split. exact Hdead'.
Qed.

Lemma dead_detector_idle_witness :
  let p := {| STATE := quiet_params "MoveNet" "tfjs-webgl" "lightning";
              aggregator := slouching false; stats := stats_init;
              detector := false; useGpuRenderer := false;
              disposed := 1; alerted := 1; drawn := [] |} in
  let idle := plain_turn [Click] (Estimated [nose_only 400]) 2500 in
  let resized := {| turn_controls := [Slide 100];
                    turn_gui := setFlags true true false false false;
                    turn_outcome := Resolves;
                    turn_estimate := Estimated [nose_only 400];
                    turn_clocks := {| beginTime := 2600; endTime := 2650;
                                      currentTime := 2700; graphTime := 2700 |} |} in
  detector p = false
  /\ no_change (STATE p) = true
  /\ exists p',
       loop (library "0.5") [idle; resized; idle] p = Some p'
       /\ keypointsData (aggregator p') = keypointsData (slouching false)
       /\ beeps (aggregator p') = []
       /\ drawn p' = [None; None; None].
Proof.
  intros p idle resized. split; [reflexivity|]. split; [reflexivity|].
  destruct (dead_detector_idle (library "0.5") [idle; resized; idle] p
              eq_refl eq_refl)
    as (p' & Hloop & Hkd & _ & Hb & _ & _ & _ & _ & Hdr).
  - constructor; [intros st Hst; exact Hst|].
    constructor; [intros st _; reflexivity|].
    constructor; [intros st Hst; exact Hst|]. constructor.
  - exists p'. split; [exact Hloop|]. split; [exact Hkd|]. split; assumption.
Defined.

(** What a turn does to the aggregator: the user's controls, then no event
    or one frame. *)
Lemma turn_run (lib : Library) (p : Page) (t : Turn) :
  wf (aggregator p) ->
  exists p' events,
    turn lib p t = Some p'
    /\ run events (aggregator p) = Some (aggregator p')
    /\ wf (aggregator p')
    /\ (length (List.filter is_frame events) <= 1)%nat
    /\ useGpuRenderer p' = useGpuRenderer p
    /\ model (STATE p') = model (turn_gui t (STATE p))
    /\ (useGpuRenderer p = true ->
        model (turn_gui t (STATE p)) <> "PoseNet" ->
        keypointsData (aggregator p') = keypointsData (aggregator p)
        /\ exists d, drawn p' = None :: d /\ drawn p = d).
Proof.
  intros Hwf. unfold turn.
  destruct (run_controls (turn_controls t) (aggregator p))
    as (a0 & Hctl & Hkd0 & _).
  pose proof (run_controls_wf _ _ _ Hwf Hctl) as Hwf0. rewrite Hctl.
  set (p0 := setAggregator a0 (setSTATE (turn_gui t (STATE p)) p)).
  rewrite renderPrediction_renders.
  destruct (checkGuiUpdate_effect lib (turn_outcome t) p0)
    as (_ & _ & _ & _ & _ & Hm & _ & _ & Hagg & _ & Hgpu & Hdr).
  set (p1 := checkGuiUpdate lib (turn_outcome t) p0) in *.
  change (aggregator p0) with a0 in Hagg.
  change (useGpuRenderer p0) with (useGpuRenderer p) in Hgpu.
  change (model (STATE p0)) with (model (turn_gui t (STATE p))) in Hm.
  change (drawn p0) with (drawn p) in Hdr.
  pose proof (controls_no_frame (turn_controls t)) as Hfilter.
  destruct (detector p1) eqn:Hdet.
  - assert (Hwf1 : wf (aggregator p1)) by now rewrite Hagg.
    destruct (renderResult_live (turn_estimate t) (turn_clocks t) p1 Hdet Hwf1)
      as (st & a & _ & Ha & Hwfa & Hrun).
    rewrite Hrun.
    eexists _, (map control_event (turn_controls t) ++ [Frame _ _ _]).
    split; [reflexivity|]. simpl.
    unfold run in *. rewrite forEach_app, Hctl. simpl.
    rewrite <- Hagg, Ha. split; [reflexivity|]. split; [exact Hwfa|].
    rewrite List.filter_app, Hfilter. simpl.
    split; [lia|]. split; [exact Hgpu|]. split; [exact Hm|].
    intros Hon Hmodel.
    assert (Hthrows : throws p1 (turn_estimate t) = true).
    { unfold throws. rewrite Hgpu, Hon, Hm.
      apply String.eqb_neq in Hmodel. now rewrite Hmodel. }
    rewrite Hthrows in Ha |- *. rewrite updateKeypointsData_null in Ha.
    destruct (updateGraph_frame _ _ _ Ha) as (-> & _).
    rewrite Hagg, Hkd0, Hdr. split; [reflexivity|]. eauto.
  - rewrite (renderResult_dead _ _ _ Hdet).
    eexists _, (map control_event (turn_controls t)).
    split; [reflexivity|]. simpl.
    rewrite Hagg. split; [exact Hctl|]. split; [exact Hwf0|].
    rewrite Hfilter. simpl. split; [lia|]. split; [exact Hgpu|].
    split; [exact Hm|]. intros _ _. rewrite Hkd0, Hdr.
    split; [reflexivity|]. eauto.
Qed.

Lemma loop_run (lib : Library) (turns : list Turn) (p : Page) :
  wf (aggregator p) ->
  exists p' events,
    loop lib turns p = Some p'
    /\ run events (aggregator p) = Some (aggregator p')
    /\ (length (List.filter is_frame events) <= length turns)%nat.
Proof.
  revert p. induction turns as [|t turns IH]; intros p Hwf.
  - exists p, []. repeat split. simpl. lia.
  - destruct (turn_run lib p t Hwf)
      as (p1 & ev1 & Hturn & Hrun1 & Hwf1 & Hlen1 & _).
    destruct (IH p1 Hwf1) as (p' & evs & Hloop & Hrun & Hlen).
    exists p', (ev1 ++ evs). unfold loop in *. simpl. rewrite Hturn.
    split; [exact Hloop|]. unfold run in *. rewrite forEach_app, Hrun1.
    split; [exact Hrun|]. rewrite List.filter_app, length_app. lia.
Qed.

(** The page drives the aggregator through the slider, the button and
    [updateKeypointsData] only: whatever the user, the option panel, the
    library and the clock do, the loop goes through, and what it does to the
    aggregator is what a run of events does, with at most one frame per
    turn. *)
Theorem loop_is_a_run (lib : Library) (turns : list Turn) (p : Page) :
  wf (aggregator p) ->
  exists p' events,
    loop lib turns p = Some p'
    /\ run events (aggregator p) = Some (aggregator p')
    /\ wf (aggregator p')
    /\ (length (List.filter is_frame events) <= length turns)%nat.
Proof.
  revert p. induction turns as [|t turns IH]; intros p Hwf.
  - exists p, []. split; [reflexivity|]. split; [reflexivity|].
    split; [exact Hwf|]. simpl. lia.
  - destruct (turn_run lib p t Hwf)
      as (p1 & ev1 & Hturn & Hrun1 & Hwf1 & Hlen1 & _).
    destruct (IH p1 Hwf1) as (p' & evs & Hloop & Hrun & Hwf' & Hlen).
    exists p', (ev1 ++ evs). unfold loop in *. simpl. rewrite Hturn.
    split; [exact Hloop|]. unfold run in *. rewrite forEach_app, Hrun1.
    split; [exact Hrun|]. split; [exact Hwf'|].
    rewrite List.filter_app, length_app. lia.
Qed.

Lemma app_start (lib : Library) (hasModel : bool) (gpuRenderer : option string)
  (st : Params) (outcome : Creation) (p0 : Page) :
  app lib hasModel gpuRenderer st outcome = Some p0 ->
  hasModel = true
  /\ STATE p0 = st
  /\ aggregator p0 = init
  /\ stats p0 = stats_init
  /\ drawn p0 = []
  /\ useGpuRenderer p0 =
     match gpuRenderer with
     | Some v => String.eqb v "true"
     | None => false
     end && String.eqb (backend st) "tfjs-webgpu".
Proof.
  unfold app. destruct hasModel; [|discriminate]. simpl.
  destruct (createDetector lib st) as [req|]; [destruct outcome|];
    try discriminate; intros [= <-]; repeat split.
Qed.

(** In the page too, no two beeps are less than 1000 ms apart: once [app]
    has started the loop, whatever the user, the option panel, the library
    and the clock do, the loop goes through and any two beeps on the log
    are more than 1000 ms apart (the log is latest first). *)
Theorem page_beeps_spaced (lib : Library) (hasModel : bool)
  (gpuRenderer : option string) (st : Params) (outcome : Creation)
  (p0 : Page) (turns : list Turn) :
  app lib hasModel gpuRenderer st outcome = Some p0 ->
  exists p',
    loop lib turns p0 = Some p'
    /\ forall (i j : nat) (later earlier : Beep),
         (i < j)%nat ->
         beeps (aggregator p') !! i = Some later ->
         beeps (aggregator p') !! j = Some earlier ->
         1000 < beep_at later - beep_at earlier.
Proof.
  intros Happ. destruct (app_start _ _ _ _ _ _ Happ) as (_ & _ & Hagg & _).
  destruct (loop_run lib turns p0) as (p' & events & Hloop & Hrun & _).
  { rewrite Hagg. exact init_wf. }
  exists p'. split; [exact Hloop|]. rewrite Hagg in Hrun.
  destruct (run_log_ok events init _ init_log_ok Hrun) as [Hsorted _].
  intros i j later earlier Hij Hi Hj.
  exact (StronglySorted_lookup _ _ Hsorted i j later earlier Hij Hi Hj).
Qed.

(** The renderer is called once per turn. *)
Lemma turn_counts (lib : Library) (turns : list Turn) (p : Page) :
  wf (aggregator p) ->
  exists p',
    loop lib turns p = Some p'
    /\ length (drawn p') = (length turns + length (drawn p))%nat.
Proof.
  revert p. induction turns as [|t turns IH]; intros p Hwf.
  - exists p. split; reflexivity.
  - destruct (turn_run lib p t Hwf) as (p1 & ev1 & Hturn & _ & Hwf1 & _).
    assert (Hdr1 : length (drawn p1) = S (length (drawn p))).
    { revert Hturn. unfold turn.
      destruct (run_controls (turn_controls t) (aggregator p)) as (a0 & -> & _).
      rewrite renderPrediction_renders.
      match goal with
      | |- renderResult _ _ (checkGuiUpdate ?l ?o ?q) = _ -> _ =>
          destruct (checkGuiUpdate_effect l o q)
            as (_ & _ & _ & _ & _ & _ & _ & _ & _ & _ & _ & Hd);
          set (p2 := checkGuiUpdate l o q) in *
      end.
      simpl in Hd. unfold renderResult.
      destruct (detector p2).
      - destruct (endEstimatePosesStats _ _); [|discriminate].
        destruct (updateKeypointsData _ _ _ _); [|discriminate].
        intros [= <-]. simpl. now rewrite Hd.
      - intros [= <-]. simpl. now rewrite Hd. }
    destruct (IH p1 Hwf1) as (p' & Hloop & Hlen).
    exists p'. unfold loop in *. simpl. rewrite Hturn.
    split; [exact Hloop|]. rewrite Hlen, Hdr1. lia.
Qed.

Lemma loop_gpu (lib : Library) (turns : list Turn) (p : Page) :
  wf (aggregator p) ->
  useGpuRenderer p = true ->
  model (STATE p) <> "PoseNet" ->
  Forall (fun t => forall st, model st <> "PoseNet" ->
                              model (turn_gui t st) <> "PoseNet") turns ->
  exists p' new,
    loop lib turns p = Some p'
    /\ keypointsData (aggregator p') = keypointsData (aggregator p)
    /\ drawn p' = new ++ drawn p
    /\ Forall (fun poses => poses = None) new.
Proof.
  revert p. induction turns as [|t turns IH]; intros p Hwf Hgpu Hmodel Hgui.
  - exists p, []. repeat split. constructor.
  - apply Forall_cons in Hgui. destruct Hgui as [Ht Hrest].
    destruct (turn_run lib p t Hwf)
      as (p1 & ev1 & Hturn & _ & Hwf1 & _ & Hgpu1 & Hm1 & Hkeep).
    pose proof (Ht (STATE p) Hmodel) as Hmodel1.
    destruct (Hkeep Hgpu Hmodel1) as (Hkd1 & d & Hdr1 & Hd).
    destruct (IH p1 Hwf1) as (p' & new & Hloop & Hkd & Hdr & Hnew).
    { now rewrite Hgpu1. }
    { now rewrite Hm1. }
    { exact Hrest. }
    exists p', (new ++ [None]). unfold loop in *. simpl. rewrite Hturn.
    split; [exact Hloop|]. split; [now rewrite Hkd|].
    split; [rewrite Hdr, Hdr1, <- Hd, <- app_assoc; reflexivity|].
    apply Forall_app. split; [exact Hnew|]. now constructor.
Qed.

(** The GPU renderer works with PoseNet only: when the page is opened with
    [gpuRenderer=true] on the [tfjs-webgpu] backend and a model other than
    PoseNet, and the option panel never selects PoseNet, no pose ever
    reaches the aggregator or the renderer: the first turn with a detector
    throws, and whatever comes later the histories stay empty and the
    renderer gets [null] at every turn. *)
Theorem gpu_renderer_needs_posenet (lib : Library) (st : Params)
  (outcome : Creation) (p0 : Page) (turns : list Turn) :
  app lib true (Some "true") st outcome = Some p0 ->
  backend st = "tfjs-webgpu" ->
  model st <> "PoseNet" ->
  Forall (fun t => forall st', model st' <> "PoseNet" ->
                               model (turn_gui t st') <> "PoseNet") turns ->
  exists p',
    loop lib turns p0 = Some p'
    /\ keypointsData (aggregator p') = keypointsData init
    /\ length (drawn p') = length turns
    /\ forall poses, In poses (drawn p') -> poses = None.
Proof.
  intros Happ Hbackend Hmodel Hgui.
  destruct (app_start _ _ _ _ _ _ Happ) as (_ & Hst & Hagg & _ & Hdr & Hgpu).
  rewrite Hbackend in Hgpu. simpl in Hgpu.
  destruct (turn_counts lib turns p0) as (p1 & Hloop1 & Hlen).
  { rewrite Hagg. exact init_wf. }
  destruct (loop_gpu lib turns p0) as (p' & new & Hloop & Hkd & Hdrawn & Hnew).
  { rewrite Hagg. exact init_wf. }
  { exact Hgpu. }
  { now rewrite Hst. }
  { exact Hgui. }
  assert (p1 = p') by congruence. subst p1.
  exists p'. split; [exact Hloop|]. rewrite Hagg in Hkd. split; [exact Hkd|].
  split; [rewrite Hlen, Hdr; simpl; lia|].
  rewrite Hdrawn, Hdr, app_nil_r. intros poses Hin.
  rewrite Forall_forall in Hnew. apply Hnew. apply list_elem_of_In. exact Hin.
Qed.

Lemma loop_is_a_run_witness :
  exists p0 p' events,
    app (library "0.5") true None (quiet_params "MoveNet" "tfjs-webgl" "lightning")
        Resolves = Some p0
    /\ wf (aggregator p0)
    /\ loop (library "0.5")
            [plain_turn [Click] (Estimated [nose_only 400]) 1500;
             plain_turn [Slide 350] Failed 3000;
             plain_turn [] (Estimated [nose_only 400]) 4500] p0 = Some p'
    /\ run events (aggregator p0) = Some (aggregator p')
    /\ (length (List.filter is_frame events) <= 3)%nat.
Proof.
  eexists. 
  assert (Hwf : wf init) by solve_wf.
  destruct (loop_is_a_run (library "0.5")
              [plain_turn [Click] (Estimated [nose_only 400]) 1500;
               plain_turn [Slide 350] Failed 3000;
               plain_turn [] (Estimated [nose_only 400]) 4500]
              {| STATE := quiet_params "MoveNet" "tfjs-webgl" "lightning";
                 aggregator := init; stats := stats_init; detector := true;
                 useGpuRenderer := false; disposed := 0; alerted := 0;
                 drawn := [] |} Hwf) as (p' & events & Hloop & Hrun & _ & Hlen).
  exists p', events. split; [reflexivity|]. split; [exact Hwf|].
  split; [exact Hloop|]. split; [exact Hrun|exact Hlen].
Defined.

Lemma page_beeps_spaced_witness :
  exists p0 p',
    app (library "0.5") true None (quiet_params "MoveNet" "tfjs-webgl" "lightning")
        Resolves = Some p0
    /\ loop (library "0.5")
            [plain_turn [Click] (Estimated [nose_only 400]) 1500;
             plain_turn [] (Estimated [nose_only 400]) 2000;
             plain_turn [] (Estimated [nose_only 400]) 3000] p0 = Some p'
    /\ length (beeps (aggregator p')) = 2%nat
    /\ forall later earlier,
         beeps (aggregator p') !! 0%nat = Some later ->
         beeps (aggregator p') !! 1%nat = Some earlier ->
         1000 < beep_at later - beep_at earlier.
Proof.
  eexists.
  destruct (page_beeps_spaced (library "0.5") true None
              (quiet_params "MoveNet" "tfjs-webgl" "lightning") Resolves _
              [plain_turn [Click] (Estimated [nose_only 400]) 1500;
               plain_turn [] (Estimated [nose_only 400]) 2000;
               plain_turn [] (Estimated [nose_only 400]) 3000] eq_refl)
    as (p' & Hloop & Hgap).
  exists p'. split; [reflexivity|]. split; [exact Hloop|]. split.
  - vm_compute in Hloop. injection Hloop as <-. reflexivity.
  - intros later earlier H0 H1. exact (Hgap 0%nat 1%nat later earlier ltac:(lia) H0 H1).
Defined.

Lemma gpu_renderer_needs_posenet_witness :
  exists p0 p',
    app (library "0.5") true (Some "true")
        (quiet_params "MoveNet" "tfjs-webgpu" "lightning") Resolves = Some p0
    /\ detector p0 = true
    /\ loop (library "0.5")
            [plain_turn [] (Estimated [nose_only 400]) 1500;
             plain_turn [] (Estimated [nose_only 400]) 2000] p0 = Some p'
    /\ keypointsData (aggregator p') = keypointsData init
    /\ drawn p' = [None; None].
Proof.
  eexists.
  destruct (gpu_renderer_needs_posenet (library "0.5")
              (quiet_params "MoveNet" "tfjs-webgpu" "lightning") Resolves _
              [plain_turn [] (Estimated [nose_only 400]) 1500;
               plain_turn [] (Estimated [nose_only 400]) 2000]
              eq_refl eq_refl ltac:(discriminate))
    as (p' & Hloop & Hkd & Hlen & Hnone).
  - repeat constructor; intros st' H; exact H.
  - exists p'. split; [reflexivity|]. split; [reflexivity|].
    split; [exact Hloop|]. split; [exact Hkd|].
    destruct (drawn p') as [|d1 [|d2 [|d3 ds]]]; try discriminate Hlen.
    rewrite (Hnone d1), (Hnone d2); simpl; auto.
Defined.

(** ** A model the library does not know *)

Lemma createDetector_unknown (lib : Library) (st : Params) :
  model st <> PoseNet lib ->
  model st <> BlazePose lib ->
  model st <> MoveNet lib ->
  createDetector lib st = None.
Proof.
  intros H1 H2 H3. unfold createDetector.
  apply String.eqb_neq in H1, H2, H3. now rewrite H1, H2, H3.
Qed.

(** A model name that is none of the three of the library gives no detector
    and no message: [createDetector] falls out of its [switch] and returns
    [undefined]; [app] starts the loop with that, and [checkGuiUpdate], when
    the option panel asks for such a model, leaves [detector] without a
    detector and shows no error. *)
Theorem unknown_model_no_detector (lib : Library) (st : Params)
  (gpuRenderer : option string) (outcome : Creation) :
  model st <> PoseNet lib ->
  model st <> BlazePose lib ->
  model st <> MoveNet lib ->
  createDetector lib st = None
  /\ (exists p0,
        app lib true gpuRenderer st outcome = Some p0
        /\ detector p0 = false /\ alerted p0 = 0%nat)
  /\ forall p,
       STATE p = st ->
       no_change st = false ->
       detector (checkGuiUpdate lib outcome p) = false
       /\ alerted (checkGuiUpdate lib outcome p) = alerted p.
Proof.
  intros H1 H2 H3.
  pose proof (createDetector_unknown lib st H1 H2 H3) as Enone.
  split; [exact Enone|]. split.
  - unfold app. simpl. rewrite Enone. eexists. split; [reflexivity|]. now split.
  - intros p <- Hchange. unfold checkGuiUpdate. cbv zeta.
    match goal with
    | |- context [if ?b then setFlags ?f1 ?f2 ?f3 ?f4 ?f5 ?s else ?s] =>
        assert (Est1 : createDetector lib (if b then setFlags f1 f2 f3 f4 f5 s else s)
                       = None)
          by (apply createDetector_unknown; destruct b; assumption);
        assert (Eflags : no_change (if b then setFlags f1 f2 f3 f4 f5 s else s)
                         = false)
          by (destruct b; [|exact Hchange]; revert Hchange; unfold no_change;
              simpl; auto)
    end.
    unfold no_change in Eflags. apply negb_false_iff in Eflags.
    rewrite Eflags, Est1. simpl. now split.
Qed.

Lemma unknown_model_no_detector_witness :
  exists p0,
    app (library "0.5") true None (quiet_params "OpenPose" "tfjs-webgl" "full")
        Resolves = Some p0
    /\ detector p0 = false /\ alerted p0 = 0%nat.
Proof.
  destruct (unknown_model_no_detector (library "0.5")
              (quiet_params "OpenPose" "tfjs-webgl" "full") None Resolves
              ltac:(discriminate) ltac:(discriminate) ltac:(discriminate))
    as (_ & Happ & _).
  exact Happ.
Defined.

(** ** A new detector *)

Lemma createDetector_setFlags (lib : Library) (f1 f2 f3 f4 f5 : bool) (st : Params) :
  createDetector lib (setFlags f1 f2 f3 f4 f5 st) = createDetector lib st.
Proof. reflexivity. Qed.

(** A detector comes back only through the option panel: when it has set
    one of [isModelChanged], [isFlagChanged], [isBackendChanged] and the
    model is one [createDetector] knows, [checkGuiUpdate] disposes of the
    old detector if there is one (once, and only then), and leaves a live
    detector if the library answers, or [null] and one error message if the
    library rejects the request. *)
Theorem checkGuiUpdate_recreates (lib : Library) (outcome : Creation) (p : Page)
  (request : string * DetectorConfig) :
  no_change (STATE p) = false ->
  createDetector lib (STATE p) = Some request ->
  disposed (checkGuiUpdate lib outcome p)
  = (if detector p then S (disposed p) else disposed p)
  /\ match outcome with
     | Resolves =>
         detector (checkGuiUpdate lib outcome p) = true
         /\ alerted (checkGuiUpdate lib outcome p) = alerted p
     | Rejects =>
         detector (checkGuiUpdate lib outcome p) = false
         /\ alerted (checkGuiUpdate lib outcome p) = S (alerted p)
     end.
Proof.
  intros Hchange Hreq. unfold checkGuiUpdate. cbv zeta.
  match goal with
  | |- context [if ?b then setFlags ?f1 ?f2 ?f3 ?f4 ?f5 ?s else ?s] =>
      assert (Est1 : createDetector lib (if b then setFlags f1 f2 f3 f4 f5 s else s)
                     = Some request)
        by (destruct b; [rewrite createDetector_setFlags|]; exact Hreq);
      assert (Eflags : no_change (if b then setFlags f1 f2 f3 f4 f5 s else s)
                       = false)
        by (destruct b; [|exact Hchange]; revert Hchange; unfold no_change;
            simpl; auto)
  end.
  unfold no_change in Eflags. apply negb_false_iff in Eflags.
  rewrite Eflags, Est1. destruct outcome; simpl; auto.
Qed.

Lemma checkGuiUpdate_recreates_witness :
  let p := {| STATE := setFlags false false true false false
                         (quiet_params "PoseNet" "tfjs-webgl" "");
              aggregator := init; stats := stats_init;
              detector := false; useGpuRenderer := false;
              disposed := 1; alerted := 1; drawn := [None] |} in
  no_change (STATE p) = false
  /\ disposed (checkGuiUpdate (library "0.5") Resolves p) = 1%nat
  /\ detector (checkGuiUpdate (library "0.5") Resolves p) = true
  /\ alerted (checkGuiUpdate (library "0.5") Resolves p) = 1%nat.
Proof.
  intros p. split; [reflexivity|].
  destruct (checkGuiUpdate_recreates (library "0.5") Resolves p _ eq_refl eq_refl)
    as (Hdis & Hdet & Hal).
  split; [exact Hdis|]. split; [exact Hdet|exact Hal].
Defined.

(** ** The code over doubles: loops and cases *)

Section DoubleFacts.

Import PrimFloat.
Local Open Scope float_scope.
#[local] Set Warnings "-inexact-float".

Lemma double_forEach_pushRecent now (arr : list Double.Entry) (acc : list PrimFloat.float) :
  forEach (Double.pushRecent now) arr acc = Some (acc ++ Double.recent 1000 now arr).
Proof.
  revert acc. induction arr as [|e arr IH]; intros acc; simpl.
  - now rewrite app_nil_r.
  - unfold Double.pushRecent at 1, Double.within, Double.recent. simpl.
    destruct (PrimFloat.ltb (PrimFloat.sub now (Double.time e)) 1000); simpl.
    + rewrite IH. unfold Double.recent. now rewrite <- app_assoc.
    + apply IH.
Qed.

Lemma double_history_lookup (kd : gmap nat (list Double.Entry)) point arr :
  kd !! point = Some arr -> Double.history kd point = arr.
Proof. unfold Double.history. now intros ->. Qed.

Lemma double_forEach_poolPoint now (kd : gmap nat (list Double.Entry))
  (ps : list nat) (acc : list PrimFloat.float) :
  Forall (fun point => is_Some (kd !! point)) ps ->
  forEach (Double.poolPoint now kd) ps acc =
  Some (acc ++ flat_map (fun point => Double.recent 1000 now (Double.history kd point))
                        ps).
Proof.
  revert acc. induction ps as [|p ps IH]; intros acc Hwf; simpl.
  - now rewrite app_nil_r.
  - inversion Hwf as [|? ? [arr Hp] Hrest]; subst.
    unfold Double.poolPoint at 1. rewrite Hp, double_forEach_pushRecent.
    rewrite (IH _ Hrest), (double_history_lookup _ _ _ Hp).
    now rewrite <- app_assoc.
Qed.

Lemma double_mapE_graphPoint now (kd : gmap nat (list Double.Entry)) (ps : list nat) :
  Forall (fun point => is_Some (kd !! point)) ps ->
  mapE (Double.graphPoint now kd) ps =
  Some (map (fun point => Double.avgY now (Double.history kd point)) ps).
Proof.
  induction ps as [|p ps IH]; intros Hwf; simpl; [reflexivity|].
  inversion Hwf as [|? ? [arr Hp] Hrest]; subst.
  unfold Double.graphPoint at 1.
  rewrite Hp, (IH Hrest), (double_history_lookup _ _ _ Hp). reflexivity.
Qed.

(** [updateGraph] over doubles in one equation, for a state whose five
    keys are there. *)
Lemma double_updateGraph_wf now (s : Double.State) :
  Double.wf s ->
  Double.updateGraph now s =
  Some (Double.checkAlert now (Double.pooled now (Double.keypointsData s))
          (Double.drawGraph
             (map (fun point =>
                     Double.avgY now (Double.history (Double.keypointsData s) point))
                  tracked) s)).
Proof.
  intros Hwf. unfold Double.updateGraph.
  rewrite (double_mapE_graphPoint now _ tracked Hwf).
  cbv zeta. simpl Double.keypointsData.
  rewrite (double_forEach_poolPoint now _ tracked [] Hwf). reflexivity.
Qed.

(** [checkAlert] over doubles, case by case, on the tests of the source. *)
Lemma double_checkAlert_cases now (pool : list PrimFloat.float) (s : Double.State) :
  (pool <> [] /\ Double.alertEnabled s = true
   /\ (Double.threshold s <? Double.fmean pool) = true
   /\ (1000 <? now - Double.lastBeepTime s) = true
   /\ Double.checkAlert now pool s = Double.beepNow now s)
  \/ ((pool = [] \/ Double.alertEnabled s = false
       \/ (Double.threshold s <? Double.fmean pool) = false
       \/ (1000 <? now - Double.lastBeepTime s) = false)
      /\ Double.checkAlert now pool s = s).
Proof.
  unfold Double.checkAlert, Double.fmean.
  destruct pool as [|x pool]; [right; split; [left|]; reflexivity|].
  change (Nat.ltb 0 (length (x :: pool))) with true. cbv iota zeta.
  destruct (Double.alertEnabled s); simpl andb;
    [|right; split; [right; left|]; reflexivity].
  destruct (PrimFloat.ltb (Double.threshold s) _) eqn:Hthr.
  - destruct (PrimFloat.ltb 1000 _) eqn:Hgap.
    + left. repeat split; try assumption. discriminate.
    + right. split; [|reflexivity]. now do 3 right.
  - right. split; [|reflexivity]. right; right; left. reflexivity.
Qed.

Lemma SFltb_asym (x y : SpecFloat.spec_float) :
  SpecFloat.SFltb x y = true -> SpecFloat.SFltb y x = false.
Proof.
  unfold SpecFloat.SFltb.
  destruct x as [sx|sx| |sx mx ex], y as [sy|sy| |sy my ey]; simpl;
    repeat match goal with
           | b : bool |- _ => destruct b
           end;
    try discriminate; try reflexivity.
  - pose proof (Z.compare_antisym ex ey) as Hz.
    pose proof (Pos.compare_cont_antisym mx my Eq) as Hp. simpl in Hp.
    destruct (Z.compare ex ey), (Z.compare ey ex); simpl in Hz;
      try discriminate; try reflexivity.
    destruct (Pos.compare_cont Eq mx my), (Pos.compare_cont Eq my mx);
      simpl in Hp; try discriminate; reflexivity.
  - pose proof (Z.compare_antisym ex ey) as Hz.
    pose proof (Pos.compare_cont_antisym mx my Eq) as Hp. simpl in Hp.
    destruct (Z.compare ex ey), (Z.compare ey ex); simpl in Hz;
      try discriminate; try reflexivity.
    destruct (Pos.compare_cont Eq mx my), (Pos.compare_cont Eq my mx);
      simpl in Hp; try discriminate; reflexivity.
Qed.

(** [<] on doubles is asymmetric. *)
Lemma double_ltb_asym (a b : PrimFloat.float) : (a <? b) = true -> (b <? a) = false.
Proof. rewrite !FloatAxioms.ltb_spec. apply SFltb_asym. Qed.

Lemma double_fold_left_y (l : list Double.Entry) (a : PrimFloat.float) :
  fold_left (fun acc d => acc + Double.y d) l a = fold_left add (map Double.y l) a.
Proof.
  revert a. induction l as [|e l IH]; intros a; simpl; [reflexivity|]. apply IH.
Qed.

(** The value charted for one history: 0 when no entry passes the window
    test of the source, the mean as the source computes it otherwise. *)
Lemma double_avgY_fmean now (arr : list Double.Entry) :
  (Double.recent 5000 now arr = [] -> Double.avgY now arr = 0)
  /\ (Double.recent 5000 now arr <> [] ->
      Double.avgY now arr = Double.fmean (Double.recent 5000 now arr)).
Proof.
  unfold Double.avgY, Double.recent, Double.fmean, Double.within.
  cbv zeta. change Double.DATA_RETENTION_WINDOW with 5000.
  destruct (List.filter (fun e => now - Double.time e <? 5000) arr)
    as [|d ds] eqn:E.
  - split; [reflexivity|]. intros H. now elim H.
  - split; [discriminate|]. intros _.
    change (Nat.eqb (length (d :: ds)) 0) with false. cbv iota.
    now rewrite double_fold_left_y, length_map.
Qed.

Lemma double_checkAlert_chart now pool (s : Double.State) :
  Double.chart_data (Double.checkAlert now pool s) = Double.chart_data s.
Proof.
  destruct (double_checkAlert_cases now pool s) as [(_ & _ & _ & _ & ->)|[_ ->]];
    reflexivity.
Qed.

(** ** The alert rule and the chart series over doubles (C2, C4) *)

(** When [currentTime - lastBeepTime] is exactly 1000, the strict test of
    the source makes no beep. *)
Lemma double_updateGraph_gap_1000 now (s : Double.State) :
  Double.wf s ->
  now - Double.lastBeepTime s = 1000 ->
  exists s', Double.updateGraph now s = Some s' /\ Double.no_alert s s'.
Proof.
  intros Hwf Hexact. rewrite (double_updateGraph_wf now s Hwf).
  eexists. split; [reflexivity|].
  match goal with
  | |- context [Double.checkAlert now ?pool ?s1] =>
      destruct (double_checkAlert_cases now pool s1)
        as [(_ & _ & _ & Hgap & _)|[_ ->]]
  end; simpl in *.
  - rewrite Hexact in Hgap. vm_compute in Hgap. discriminate Hgap.
  - split; reflexivity.
Qed.

(** C2, amended: on a call of [updateGraph] (which returns), with the
    numbers of the source (doubles): if [alertEnabled] is true, the pooled
    set of the heights with [currentTime - time < 1000] is not empty, its
    mean as the source computes it (the sum from the left divided by the
    count) is above [threshold], and [currentTime - lastBeepTime] is above
    1000 ([lastBeepTime] being 0 until the first alert), then
    [beep(0.2, 440, 300)] is called and [lastBeepTime] becomes the clock
    reading; if [alertEnabled] is false, or the pooled set is empty, or that
    mean is not above [threshold], or [currentTime - lastBeepTime] is below
    1000, no alert fires. *)
Theorem C2_double_alert_rule now (s : Double.State) :
  Double.wf s ->
  exists s',
    Double.updateGraph now s = Some s'
    /\ (Double.alertEnabled s = true
        /\ Double.pooled now (Double.keypointsData s) <> []
        /\ (Double.threshold s
            <? Double.fmean (Double.pooled now (Double.keypointsData s))) = true
        /\ (1000 <? now - Double.lastBeepTime s) = true ->
        Double.alert_fires now s s')
    /\ (Double.alertEnabled s = false
        \/ Double.pooled now (Double.keypointsData s) = []
        \/ (Double.threshold s
            <? Double.fmean (Double.pooled now (Double.keypointsData s))) = false
        \/ (now - Double.lastBeepTime s <? 1000) = true ->
        Double.no_alert s s').
Proof.
  intros Hwf. rewrite (double_updateGraph_wf now s Hwf).
  eexists. split; [reflexivity|].
  match goal with
  | |- context [Double.checkAlert now ?pool ?s1] =>
      destruct (double_checkAlert_cases now pool s1)
        as [(Hne & Hen & Hthr & Hgap & ->)|[Hno ->]]
  end; simpl in *.
  - split.
    + intros _. split; reflexivity.
    + intros [Hoff|[Hnil|[Hle|Hlt]]]; exfalso.
      * congruence.
      * exact (Hne Hnil).
      * congruence.
      * apply double_ltb_asym in Hlt. congruence.
  - split; [|intros _; split; reflexivity].
    intros (Hen & Hne & Hthr & Hgap). exfalso.
    destruct Hno as [Hnil|[Hoff|[Hle|Hle]]]; [exact (Hne Hnil)|congruence..].
Qed.

Lemma C2_double_alert_rule_witness :
  Double.wf Double.near_threshold
  /\ Double.fmean (Double.pooled 2500 (Double.keypointsData Double.near_threshold))
     = 0x1.2c00000000001p+8
  /\ exists s',
       Double.updateGraph 2500 Double.near_threshold = Some s'
       /\ Double.alert_fires 2500 Double.near_threshold s'.
Proof.
  assert (Hwf : Double.wf Double.near_threshold).
  { unfold Double.wf, tracked.
    repeat (constructor; [eexists; reflexivity|]). constructor. }
  split; [exact Hwf|]. split; [vm_compute; reflexivity|].
  destruct (C2_double_alert_rule 2500 Double.near_threshold Hwf)
    as (s' & Hrun & Hfire & _).
  exists s'. split; [exact Hrun|]. apply Hfire.
  split; [reflexivity|]. split; [discriminate|].
  split; vm_compute; reflexivity.
Defined.

(** C4, as stated, fails on the numbers of the source: the mean of doubles
    is rounded.  With keypoint 0 seen three times at the same height (the
    double nearest to 100.1), all three entries in the window, the value
    charted for it is not 0 and is below that height, which is the least and
    the greatest of its windowed heights and their arithmetic mean. *)
Lemma C4_counterexample :
  exists s v,
    Double.frames Double.three_equal_heights Double.init = Some s
    /\ Double.recent 5000 200 (Double.history (Double.keypointsData s) 0%nat)
       = [Double.h100_1; Double.h100_1; Double.h100_1]
    /\ Double.chart_data s !! 0%nat = Some v
    /\ (v =? 0) = false
    /\ (v <? Double.h100_1) = true.
Proof.
  eexists _, _. split; [vm_compute; reflexivity|].
  split; [vm_compute; reflexivity|]. split; [vm_compute; reflexivity|].
  split; vm_compute; reflexivity.
Qed.

(** C4, amended: a call of [updateGraph] (which returns) sets the chart
    dataset to five values, one per tracked keypoint in the order 0..4.  The
    value of a keypoint is exactly 0 when its history has no entry with
    [currentTime - time < 5000] (difference and test of doubles), and
    otherwise the mean of [y] over these entries as the source computes it
    in doubles: the sum from the left, starting at 0, divided by the
    count. *)
Theorem C4_double_chart_series now (s : Double.State) :
  Double.wf s ->
  exists s',
    Double.updateGraph now s = Some s'
    /\ length (Double.chart_data s') = 5%nat
    /\ forall point, In point tracked ->
         exists v,
           Double.chart_data s' !! point = Some v
           /\ let w := map Double.y
                         (List.filter (fun e => now - Double.time e <? 5000)
                            (Double.history (Double.keypointsData s) point)) in
              (w = [] -> v = 0)
              /\ (w <> [] -> v = fold_left add w 0 / Double.of_nat (length w)).
Proof.
  intros Hwf. rewrite (double_updateGraph_wf now s Hwf).
  eexists. split; [reflexivity|].
  rewrite double_checkAlert_chart. simpl Double.chart_data.
  split; [reflexivity|].
  intros point Hpoint.
  exists (Double.avgY now (Double.history (Double.keypointsData s) point)).
  split; [each_tracked Hpoint|]. cbv zeta.
  exact (double_avgY_fmean now (Double.history (Double.keypointsData s) point)).
Qed.

Lemma C4_double_chart_series_witness :
  Double.wf Double.near_threshold
  /\ exists s',
       Double.updateGraph 2500 Double.near_threshold = Some s'
       /\ length (Double.chart_data s') = 5%nat
       /\ Double.chart_data s' !! 0%nat = Some 0x1.2c00000000001p+8
       /\ Double.chart_data s' !! 3%nat = Some 0.
Proof.
  assert (Hwf : Double.wf Double.near_threshold).
  { unfold Double.wf, tracked.
    repeat (constructor; [eexists; reflexivity|]). constructor. }
  split; [exact Hwf|].
  destruct (C4_double_chart_series 2500 Double.near_threshold Hwf)
    as (s' & Hrun & Hlen & Hval).
  exists s'. split; [exact Hrun|]. split; [exact Hlen|]. split.
  - destruct (Hval 0%nat) as (v & Hv & _ & Hmean); [simpl; auto|].
    rewrite Hv. f_equal. rewrite Hmean; [vm_compute; reflexivity|].
    vm_compute. discriminate.
  - destruct (Hval 3%nat) as (v & Hv & Hzero & _); [simpl; auto 10|].
    rewrite Hv. f_equal. apply Hzero. vm_compute. reflexivity.
Defined.

(** ** The inference-time panel over doubles *)

Lemma double_timed_cases (st : Double.Stats) (span : PrimFloat.float * PrimFloat.float) :
  ((1000 <=? snd span - Double.lastPanelUpdate st) = true
   /\ Double.timed st span =
      {| Double.startInferenceTime := fst span;
         Double.numInferences := 0;
         Double.inferenceTimeSum := 0;
         Double.lastPanelUpdate := snd span;
         Double.panel :=
           {| Double.panel_at := snd span;
              Double.panel_value :=
                1000 / ((Double.inferenceTimeSum st + Double.duration span)
                        / (Double.numInferences st + 1));
              Double.panel_maxValue := 120 |} :: Double.panel st |})
  \/ ((1000 <=? snd span - Double.lastPanelUpdate st) = false
      /\ Double.timed st span =
         {| Double.startInferenceTime := fst span;
            Double.numInferences := Double.numInferences st + 1;
            Double.inferenceTimeSum := Double.inferenceTimeSum st + Double.duration span;
            Double.lastPanelUpdate := Double.lastPanelUpdate st;
            Double.panel := Double.panel st |}).
Proof.
  unfold Double.timed, Double.endEstimatePosesStats,
    Double.beginEstimatePosesStats, Double.duration.
  simpl. destruct (1000 <=? snd span - Double.lastPanelUpdate st);
    [left|right]; split; reflexivity.
Qed.

Lemma double_timed_quiet (st : Double.Stats)
  (quiet : list (PrimFloat.float * PrimFloat.float)) :
  Double.numInferences st = 0 ->
  (forall span, In span quiet ->
     (1000 <=? snd span - Double.lastPanelUpdate st) = false) ->
  Double.numInferences (fold_left Double.timed quiet st)
  = Double.of_nat (length quiet)
  /\ Double.inferenceTimeSum (fold_left Double.timed quiet st)
     = fold_left add (map Double.duration quiet) (Double.inferenceTimeSum st)
  /\ Double.lastPanelUpdate (fold_left Double.timed quiet st)
     = Double.lastPanelUpdate st
  /\ Double.panel (fold_left Double.timed quiet st) = Double.panel st.
Proof.
  intros Hn0. induction quiet as [|span quiet IH] using rev_ind; intros Hquiet.
  - simpl. now rewrite Hn0.
  - destruct IH as (Hn & Hsum & Hlast & Hpanel).
    { intros span' Hin. apply Hquiet. apply in_or_app. now left. }
    rewrite fold_left_app.
    change (fold_left Double.timed [span] ?x) with (Double.timed x span).
    destruct (double_timed_cases (fold_left Double.timed quiet st) span)
      as [[Hgap _]|[_ ->]].
    + rewrite Hlast, (Hquiet span) in Hgap; [discriminate|].
      apply in_or_app. right. now left.
    + cbn [Double.numInferences Double.inferenceTimeSum Double.lastPanelUpdate
           Double.panel].
      rewrite Hn, Hsum, length_app, map_app, fold_left_app. simpl.
      rewrite Nat.add_1_r. repeat split; assumption.
Qed.

(** What the panel shows, in the numbers of the source: starting with the
    counters at zero (start-up, or just after a panel update), after
    inferences whose end is not yet [>= 1000] after [lastPanelUpdate] and one
    whose end is, the panel got one more update, at the end of that last
    inference, with [1000 / a] and [maxValue] 120, where [a] is the sum from
    the left of the durations [end - start] divided by their count, all in
    doubles; the counters are back at zero. *)
Theorem panel_shows_double_average
  (quiet : list (PrimFloat.float * PrimFloat.float))
  (final : PrimFloat.float * PrimFloat.float) (st : Double.Stats) :
  Double.numInferences st = 0 ->
  Double.inferenceTimeSum st = 0 ->
  (forall span, In span quiet ->
     (1000 <=? snd span - Double.lastPanelUpdate st) = false) ->
  (1000 <=? snd final - Double.lastPanelUpdate st) = true ->
  let st' := fold_left Double.timed (quiet ++ [final]) st in
  Double.panel st'
  = {| Double.panel_at := snd final;
       Double.panel_value :=
         1000 / Double.fmean (map Double.duration (quiet ++ [final]));
       Double.panel_maxValue := 120 |} :: Double.panel st
  /\ Double.numInferences st' = 0
  /\ Double.inferenceTimeSum st' = 0
  /\ Double.lastPanelUpdate st' = snd final.
Proof.
  intros Hn0 Hsum0 Hquiet Hfinal st'. subst st'.
  destruct (double_timed_quiet st quiet Hn0 Hquiet) as (Hn & Hsum & Hlast & Hpanel).
  rewrite fold_left_app.
  change (fold_left Double.timed [final] ?x) with (Double.timed x final).
  destruct (double_timed_cases (fold_left Double.timed quiet st) final)
    as [[_ ->]|[Hgap _]].
  - cbn [Double.numInferences Double.inferenceTimeSum Double.lastPanelUpdate
         Double.panel].
    rewrite Hn, Hsum, Hsum0, Hpanel.
    unfold Double.fmean. rewrite length_map, length_app, map_app, fold_left_app.
    simpl. rewrite Nat.add_1_r. repeat split.
  - rewrite Hlast, Hfinal in Hgap. discriminate.
Qed.

Lemma panel_shows_double_average_witness :
  let st' := fold_left Double.timed
               ([(100, 116.7); (200, 216.6)] ++ [(1000, 1016.9)])
               Double.stats_init in
  map Double.panel_value (Double.panel st')
  = [1000 / ((((0 + (116.7 - 100)) + (216.6 - 200)) + (1016.9 - 1000)) / 3)]
  /\ Double.numInferences st' = 0.
Proof.
  intros st'.
  destruct (panel_shows_double_average [(100, 116.7); (200, 216.6)]
              (1000, 1016.9) Double.stats_init eq_refl eq_refl)
    as (Hpanel & Hn & _).
  - intros span [<-|[<-|[]]]; vm_compute; reflexivity.
  - vm_compute. reflexivity.
  - fold st' in Hpanel, Hn. split; [|exact Hn].
    rewrite Hpanel. vm_compute. reflexivity.
Defined.

End DoubleFacts.
